(** * The Sovereign SDK MetaMask snap: request handler [onRpcRequest]

    A shallow embedding of the snap's JSON-RPC handler (the [onRpcRequest]
    function with its helpers [getKeypairParams], [cleanPublicKeyResponse]
    and [omitKey]) and of the parameter structs [GetAddressStruct],
    [TransactionStruct] and [SignTransactionStruct], followed by the
    properties of the signing protocol.

    - JavaScript values are a small inductive type; objects are association
      lists in property order.
    - The [superstruct] combinators the structs are built from are an
      inductive type with the library's [validate] as a function on it.
    - The handler is a program in a monad that threads the state of the
      outside world, collects the trace of the calls that leave the handler
      (custody gateway, dialog, codec, signer) and propagates exceptions;
      [try]/[catch] is a combinator of that monad.
    - Console logging is left out; every thrown value is an error object,
      so the [er.toString()] of the catch blocks succeeds. *)

From Stdlib Require Import List String Ascii Bool ZArith QArith Lia.
From Stdlib Require DecimalN DecimalPos Qcanon.
From Stdlib Require Import DecimalString.
From Stdlib.Strings Require Import Byte.
Import ListNotations.

#[local] Set Warnings "-register-all".

Local Open Scope string_scope.
Local Open Scope list_scope.

(* ================================================================= *)
(** ** JavaScript values *)

(** A JavaScript number: a finite value (every finite double is a
    rational), an infinity, or NaN.  The handler never computes with
    numbers, it only tests and prints them. *)
Inductive JsNum : Type :=
| Finite (q : Q)
| Infinite (negative : bool)
| NaN.

(** Objects keep their properties in enumeration order. *)
Inductive JsValue : Type :=
| JUndefined
| JNull
| JBool (b : bool)
| JNumber (n : JsNum)
| JString (s : string)
| JArray (items : list JsValue)
| JObject (fields : list (string * JsValue)).

Definition Fields := list (string * JsValue).

(** [typeof x === 'number' && !isNaN(x)] *)
Definition is_number (v : JsValue) : bool :=
  match v with
  | JNumber NaN => false
  | JNumber _ => true
  | _ => false
  end.

(** A number that is an integer and not negative. *)
Definition is_nonneg_integer (v : JsValue) : bool :=
  match v with
  | JNumber (Finite q) =>
      Qle_bool 0 q && Pos.eqb (Qden (Qred q)) 1
  | _ => false
  end.

(** superstruct's [isObject]: [typeof x === 'object' && x != null]. *)
Definition isObject (v : JsValue) : bool :=
  match v with
  | JObject _ | JArray _ => true
  | _ => false
  end.

(** [Array.isArray] *)
Definition isArray (v : JsValue) : bool :=
  match v with
  | JArray _ => true
  | _ => false
  end.

(** The property name of array index [i]. *)
Definition index_key (i : nat) : string :=
  NilEmpty.string_of_uint (Nat.to_uint i).

Fixpoint indexed_from {A : Type} (i : nat) (l : list A) : list (string * A) :=
  match l with
  | [] => []
  | x :: rest => (index_key i, x) :: indexed_from (S i) rest
  end.

(** The own enumerable properties of a value, in the order of
    [Object.keys]. *)
Definition own_entries (v : JsValue) : Fields :=
  match v with
  | JObject fields => fields
  | JArray items => indexed_from 0 items
  | _ => []
  end.

Fixpoint lookup (k : string) (fields : Fields) : option JsValue :=
  match fields with
  | [] => None
  | (k', v) :: rest => if String.eqb k k' then Some v else lookup k rest
  end.

(** [value[key]] for a key that names no inherited property: the own
    property when there is one, [undefined] otherwise. *)
Definition get_prop (k : string) (v : JsValue) : JsValue :=
  match lookup k (own_entries v) with
  | Some x => x
  | None => JUndefined
  end.

Definition keys (fields : Fields) : list string := map fst fields.

Definition has_key (k : string) (fields : Fields) : bool :=
  existsb (String.eqb k) (keys fields).

(** Assignment of one property while an object is built: an existing
    property keeps its position and takes the new value, a new property
    goes last. *)
Fixpoint set_prop (k : string) (v : JsValue) (fields : Fields) : Fields :=
  match fields with
  | [] => [(k, v)]
  | (k', v') :: rest =>
      if String.eqb k k' then (k, v) :: rest
      else (k', v') :: set_prop k v rest
  end.

(** The spread [{ ...base, ...src }]: the properties of [src] are assigned
    one after the other. *)
Definition spread_into (base src : Fields) : Fields :=
  fold_left (fun acc kv => set_prop (fst kv) (snd kv) acc) src base.

(* ================================================================= *)
(** ** superstruct: the combinators used by the parameter structs *)

Module superstruct.

Inductive Struct : Type :=
| number                                         (* number() *)
| never                                          (* never() *)
| object_any                                     (* object() *)
| object (schema : list (string * Struct))       (* object({...}) *)
| type (schema : list (string * Struct))         (* type({...}) *)
| optional (s : Struct)                          (* optional(s) *)
| array (element : Struct).                      (* array(s) *)

(** What a failing validator reports: where, which struct, which value. *)
Record Failure : Type := mkFailure {
  f_path : list string;
  f_type : string;
  f_value : JsValue
}.

Definition known_key (schema : list (string * Struct)) (k : string) : bool :=
  existsb (String.eqb k) (map fst schema).

(** The failures the library's [run] yields, in order: first the struct's
    own validator, then the entries it iterates.  [object] iterates the
    schema's keys and then the value's unknown keys against [never];
    [type] iterates the schema's keys only. *)
Fixpoint failures (s : Struct) (path : list string) (v : JsValue)
  {struct s} : list Failure :=
  match s with
  | number =>
      if is_number v then [] else [mkFailure path "number" v]
  | never => [mkFailure path "never" v]
  | object_any =>
      if isObject v then [] else [mkFailure path "object" v]
  | object schema =>
      if isObject v then
        (fix knowns (sch : list (string * Struct)) : list Failure :=
           match sch with
           | [] => []
           | (k, sk) :: rest =>
               failures sk (path ++ [k]) (get_prop k v) ++ knowns rest
           end) schema
        ++ map (fun kv => mkFailure (path ++ [fst kv]) "never" (snd kv))
             (filter (fun kv => negb (known_key schema (fst kv)))
                (own_entries v))
      else [mkFailure path "object" v]
  | type schema =>
      if isObject v then
        (fix knowns (sch : list (string * Struct)) : list Failure :=
           match sch with
           | [] => []
           | (k, sk) :: rest =>
               failures sk (path ++ [k]) (get_prop k v) ++ knowns rest
           end) schema
      else [mkFailure path "type" v]
  | optional s' =>
      match v with
      | JUndefined => []
      | _ => failures s' path v
      end
  | array element =>
      match v with
      | JArray items =>
          flat_map (fun kv => failures element (path ++ [fst kv]) (snd kv))
            (indexed_from 0 items)
      | _ => [mkFailure path "array" v]
      end
  end.

(** [validate(value, struct)]: the tuple [[error, value]] with exactly one
    side defined; the error is built from the first failure. *)
Definition validate (v : JsValue) (s : Struct) : Failure + JsValue :=
  match failures s [] v with
  | [] => inr v
  | f :: _ => inl f
  end.

End superstruct.
Import superstruct.

(* ================================================================= *)
(** ** The parameter structs (types.ts) *)

Definition GetAddressStruct : Struct :=
  type [("keyId", number)].

Definition TransactionStruct : Struct :=
  object [("call", object_any);
          ("chain_id", number);
          ("max_priority_fee_bips", number);
          ("max_fee", number);
          ("gas_limit", optional (array number));
          ("nonce", number)].

Definition SignTransactionStruct : Struct :=
  object [("transaction", TransactionStruct);
          ("keyId", number)].

(* ================================================================= *)
(** ** Strings and bytes (@metamask/utils) *)

(** [s.slice(n)] for [n >= 0]: the string without its first [n]
    characters. *)
Fixpoint slice (n : nat) (s : string) : string :=
  match n, s with
  | O, _ => s
  | S _, EmptyString => EmptyString
  | S n', String _ rest => slice n' rest
  end.

(** [remove0x]: drops a leading [0x] or [0X]. *)
Definition remove0x (hexadecimal : string) : string :=
  if String.prefix "0x" hexadecimal || String.prefix "0X" hexadecimal
  then slice 2 hexadecimal
  else hexadecimal.

Definition hex_digit (n : N) : ascii :=
  match n with
  | 0 => "0" | 1 => "1" | 2 => "2" | 3 => "3" | 4 => "4" | 5 => "5"
  | 6 => "6" | 7 => "7" | 8 => "8" | 9 => "9" | 10 => "a" | 11 => "b"
  | 12 => "c" | 13 => "d" | 14 => "e" | _ => "f"
  end%N%char.

Definition byte_hex (b : byte) : string :=
  let n := Byte.to_N b in
  String (hex_digit (N.div n 16)) (String (hex_digit (N.modulo n 16)) "").

(** [bytesToHex]: [0x] followed by two lower-case digits per byte. *)
Definition bytesToHex (bytes : list byte) : string :=
  "0x" ++ String.concat "" (map byte_hex bytes).

(** [Array.from(uint8Array)]: the bytes as an array of numbers. *)
Definition Array_from (bytes : list byte) : JsValue :=
  JArray (map (fun b => JNumber (Finite (inject_Z (Z.of_N (Byte.to_N b))))) bytes).

(** JavaScript truthiness, as tested by [!x], [x ? a : b] and [assert]. *)
Definition truthy (v : JsValue) : bool :=
  match v with
  | JUndefined | JNull => false
  | JBool b => b
  | JNumber (Finite q) => negb (Qeq_bool q 0)
  | JNumber (Infinite _) => true
  | JNumber NaN => false
  | JString s => negb (String.eqb s "")
  | JArray _ | JObject _ => true
  end.

(* ================================================================= *)
(** ** Errors, collaborators and the handler's monad *)

(** The exceptions that travel through the handler. *)
Inductive JsError : Type :=
| InvalidParams (message : string)     (* rpcErrors.invalidParams(message) *)
| UserRejectedRequest                  (* providerErrors.userRejectedRequest() *)
| Error (message : string)             (* new Error(message) *)
| AssertionError                       (* a failed assert(...) *)
| TypeError (message : string).        (* a member access the value lacks *)

Definition Outcome (A : Type) : Type := (JsError + A)%type.

(** Renderings done by the JavaScript runtime and by superstruct; their
    text plays no part in the protocol. *)
Class JsBuiltins : Type := {
  (** [String(x)], [`${x}`] and [x.toString()] *)
  to_string : JsValue -> string;
  JSON_stringify : JsValue -> string;
  (** [structError.toString()] *)
  StructError_toString : Failure -> string
}.

Record KeypairParams : Type := {
  path : list string;
  compressed : bool;
  curve : string
}.

Record SLIP10Node : Type := {
  publicKey : string;
  privateKey : option string
}.

(** @metamask/snaps-ui components. *)
Inductive Component : Type :=
| heading (value : string)
| text (value : string)
| copyable (value : string)
| panel (children : list Component).

Inductive DialogType : Type := Alert | Confirmation | Prompt.

Record DialogParams : Type := {
  dialog_type : DialogType;
  content : Component
}.

(** The calls that leave the handler: the custody gateway and the dialog
    ([snap.request]), the key tree, the codec ([wasm]) and the signer. *)
Inductive Call : Type :=
| snap_getBip32PublicKey (params : KeypairParams)
| snap_getBip32Entropy (params : KeypairParams)
| SLIP10Node_fromJSON (entropy : JsValue)
| snap_dialog (params : DialogParams)
| bechEncodePublicKey (publicKey : string)
| serializeCall (call : JsValue)
| serializeUnsignedTransaction (unsignedTransaction : JsValue)
| serializeTransaction (signedTransaction : JsValue)
| sign (message : list byte) (privateKey : string).

Definition ret_type (c : Call) : Type :=
  match c with
  | snap_getBip32PublicKey _ => JsValue
  | snap_getBip32Entropy _ => JsValue
  | SLIP10Node_fromJSON _ => SLIP10Node
  | snap_dialog _ => JsValue
  | bechEncodePublicKey _ => string
  | serializeCall _ => list byte
  | serializeUnsignedTransaction _ => list byte
  | serializeTransaction _ => list byte
  | sign _ _ => list byte
  end.

(** The collaborators.  Every call may change the outside world and either
    returns or throws; [wasm.dealloc()] releases the codec's working memory
    and returns nothing. *)
Class Host (World : Type) : Type := {
  host_call : forall c : Call, World -> World * Outcome (ret_type c);
  host_dealloc : World -> World
}.

Inductive Event : Type :=
| Called (c : Call) (r : Outcome (ret_type c))
| Dealloc.

Definition Trace := list Event.

Module M.

(** A computation: from the world before to the trace of calls made, the
    world after and the value returned or exception thrown. *)
Definition t (World A : Type) : Type := World -> Trace * World * Outcome A.

Section Ops.
Context {World : Type} `{Host World}.

Definition ret {A} (a : A) : t World A := fun w => ([], w, inr a).

Definition throw {A} (e : JsError) : t World A := fun w => ([], w, inl e).

Definition bind {A B} (m : t World A) (k : A -> t World B) : t World B :=
  fun w =>
    match m w with
    | (tr, w', inl e) => (tr, w', inl e)
    | (tr, w', inr a) =>
        match k a w' with
        | (tr', w'', r) => (tr ++ tr', w'', r)
        end
    end.

(** [try { body } catch (er) { handler er }] *)
Definition try_catch {A} (body : t World A) (handler : JsError -> t World A)
  : t World A :=
  fun w =>
    match body w with
    | (tr, w', inl er) =>
        match handler er w' with
        | (tr', w'', r) => (tr ++ tr', w'', r)
        end
    | done => done
    end.

Definition call (c : Call) : t World (ret_type c) :=
  fun w =>
    match host_call c w with
    | (w', r) => ([Called c r], w', r)
    end.

Definition dealloc : t World unit :=
  fun w => ([Dealloc], host_dealloc w, inr tt).

Definition lift {A} (r : Outcome A) : t World A :=
  match r with
  | inl e => throw e
  | inr a => ret a
  end.

End Ops.

End M.

Declare Scope js_scope.
Delimit Scope js_scope with js.
Notation "x <- m ;; k" := (M.bind m (fun x => k))
  (at level 100, m at next level, right associativity) : js_scope.
Notation "m ;;; k" := (M.bind m (fun _ => k))
  (at level 100, right associativity) : js_scope.

(* ================================================================= *)
(** ** The handler (index.ts) *)

Record Request : Type := {
  method : string;
  params : JsValue
}.

Section Handler.

Context `{JsBuiltins} {World : Type} `{Host World}.

Local Open Scope js_scope.

Definition getKeypairParams (keyId : JsValue) : KeypairParams :=
  {| path := ["m"; "44'"; "1551'"; (to_string keyId ++ "'")%string];
     compressed := true;
     curve := "ed25519" |}.

(** [remove0x(response).slice(2)]; a response that is not a string has no
    [startsWith]. *)
Definition cleanPublicKeyResponse (metamaskPublicKeyResponse : JsValue)
  : Outcome string :=
  match metamaskPublicKeyResponse with
  | JString s => inr (slice 2 (remove0x s))
  | _ => inl (TypeError "hexadecimal.startsWith is not a function")
  end.

(** [const { [key]: omitted, ...rest } = obj; return rest] *)
Definition omitKey (key : string) (obj : JsValue) : Fields :=
  filter (fun kv => negb (String.eqb key (fst kv))) (own_entries obj).

(** [x.toString()] *)
Definition toString (x : JsValue) : Outcome string :=
  match x with
  | JUndefined | JNull =>
      inl (TypeError "Cannot read properties of undefined (reading 'toString')")
  | _ => inr (to_string x)
  end.

(** [gas_limit ? gas_limit.join(', ') : 'Not Set'] *)
Definition gas_limit_text (gas_limit : JsValue) : Outcome string :=
  if truthy gas_limit then
    match gas_limit with
    | JArray items => inr (String.concat ", " (map to_string items))
    | _ => inl (TypeError "transaction.gas_limit.join is not a function")
    end
  else inr "Not Set".

(** The panel shown by the confirmation dialog. *)
Definition confirmation_content (origin : string) (transaction : JsValue)
    (address : string) : M.t World Component :=
  nonce <- M.lift (toString (get_prop "nonce" transaction)) ;;
  chain_id <- M.lift (toString (get_prop "chain_id" transaction)) ;;
  max_priority_fee_bips <-
    M.lift (toString (get_prop "max_priority_fee_bips" transaction)) ;;
  max_fee <- M.lift (toString (get_prop "max_fee" transaction)) ;;
  gas_limit <- M.lift (gas_limit_text (get_prop "gas_limit" transaction)) ;;
  M.ret (panel [
    heading "Signature request";
    text "The application at:";
    copyable origin;
    text "is requesting a signature for the call message:";
    copyable (JSON_stringify (get_prop "call" transaction));
    text "from address:";
    copyable address;
    text "with nonce:";
    copyable nonce;
    text "with chainId:";
    copyable chain_id;
    text "with maxPriorityFeeBips:";
    copyable max_priority_fee_bips;
    text "with maxFee:";
    copyable max_fee;
    text "with gasLimit:";
    copyable gas_limit ]).

(** [{ ...omitKey("call", transaction), runtime_msg }] *)
Definition unsignedTransaction_of (transaction runtime_msg : JsValue)
  : JsValue :=
  JObject (set_prop "runtime_msg" runtime_msg
             (spread_into [] (omitKey "call" transaction))).

(** [{ "signature": { "msg_sig": sig }, "pub_key": publicKey,
       ...unsignedTransaction }] *)
Definition signedTransaction_of (sig : JsValue) (publicKey : string)
    (unsignedTransaction : JsValue) : JsValue :=
  JObject (spread_into
             [("signature", JObject [("msg_sig", sig)]);
              ("pub_key", JString publicKey)]
             (own_entries unsignedTransaction)).

(** [assert(node.privateKey)] with the narrowing it gives. *)
Definition assert_privateKey (node : SLIP10Node) : Outcome string :=
  match privateKey node with
  | Some k => if String.eqb k "" then inl AssertionError else inr k
  | None => inl AssertionError
  end.

Definition getAddress_body (keypairParams : KeypairParams)
  : M.t World string :=
  M.try_catch
    (publicKeyResponse <- M.call (snap_getBip32PublicKey keypairParams) ;;
     publicKey <- M.lift (cleanPublicKeyResponse publicKeyResponse) ;;
     address <- M.call (bechEncodePublicKey publicKey) ;;
     M.dealloc ;;;
     M.ret address)
    (fun er =>
       M.dealloc ;;;
       M.throw er).

Definition signTransaction_body (origin : string) (transaction : JsValue)
    (keypairParams : KeypairParams) : M.t World string :=
  M.try_catch
    (entropy <- M.call (snap_getBip32Entropy keypairParams) ;;
     node <- M.call (SLIP10Node_fromJSON entropy) ;;
     node_privateKey <- M.lift (assert_privateKey node) ;;
     publicKey <- M.lift (cleanPublicKeyResponse (JString (publicKey node))) ;;
     address <- M.call (bechEncodePublicKey publicKey) ;;
     shown <- confirmation_content origin transaction address ;;
     approved <- M.call (snap_dialog {| dialog_type := Confirmation;
                                        content := shown |}) ;;
     if negb (truthy approved) then M.throw UserRejectedRequest
     else
       runtime_bytes <- M.call (serializeCall (get_prop "call" transaction)) ;;
       let runtime_msg := Array_from runtime_bytes in
       let unsignedTransaction :=
         unsignedTransaction_of transaction runtime_msg in
       serializedUnsignedTransaction <-
         M.call (serializeUnsignedTransaction unsignedTransaction) ;;
       let privateKey := remove0x node_privateKey in
       sig_bytes <- M.call (sign serializedUnsignedTransaction privateKey) ;;
       let sig := Array_from sig_bytes in
       let signedTransaction :=
         signedTransaction_of sig publicKey unsignedTransaction in
       tx <- M.call (serializeTransaction signedTransaction) ;;
       let txHex := bytesToHex tx in
       M.dealloc ;;;
       M.ret txHex)
    (fun er =>
       M.dealloc ;;;
       M.throw er).

Definition onRpcRequest (origin : string) (request : Request)
  : M.t World string :=
  if String.eqb (method request) "getAddress" then
    match validate (params request) GetAddressStruct with
    | inl validationErr =>
        M.throw (InvalidParams (StructError_toString validationErr))
    | inr params =>
        let keyId := get_prop "keyId" params in
        getAddress_body (getKeypairParams keyId)
    end
  else if String.eqb (method request) "signTransaction" then
    match validate (params request) SignTransactionStruct with
    | inl validationErr =>
        M.throw (InvalidParams (StructError_toString validationErr))
    | inr params =>
        let transaction := get_prop "transaction" params in
        let keyId := get_prop "keyId" params in
        signTransaction_body origin transaction (getKeypairParams keyId)
    end
  else M.throw (Error "Method not found.").

End Handler.

(* ================================================================= *)
(** ** Observations on traces *)

Definition is_dealloc (e : Event) : bool :=
  match e with
  | Dealloc => true
  | Called _ _ => false
  end.

(** How many times the codec's working resource was released. *)
Definition count_dealloc (tr : Trace) : nat :=
  List.length (filter is_dealloc tr).

Definition call_of (e : Event) : option Call :=
  match e with
  | Called c _ => Some c
  | Dealloc => None
  end.

(** Calls of the canonical encoder ([serializeCall],
    [serializeUnsignedTransaction], [serializeTransaction]) and of the
    signer. *)
Definition is_encoder_or_signer (e : Event) : bool :=
  match call_of e with
  | Some (serializeCall _) | Some (serializeUnsignedTransaction _)
  | Some (serializeTransaction _) | Some (sign _ _) => true
  | _ => false
  end.

(** Calls of the custody gateway. *)
Definition is_custody (e : Event) : bool :=
  match call_of e with
  | Some (snap_getBip32PublicKey _) | Some (snap_getBip32Entropy _) => true
  | _ => false
  end.

(** Uses of the codec: its encoders and the release of its memory. *)
Definition is_codec (e : Event) : bool :=
  match e with
  | Dealloc => true
  | Called (bechEncodePublicKey _) _ | Called (serializeCall _) _
  | Called (serializeUnsignedTransaction _) _
  | Called (serializeTransaction _) _ => true
  | Called _ _ => false
  end.

(** The operator's answer, when the event is an answered dialog. *)
Definition dialog_answer (e : Event) : option JsValue :=
  match e with
  | Called c r =>
      match c return Outcome (ret_type c) -> option JsValue with
      | snap_dialog _ =>
          fun r => match r with inr a => Some a | inl _ => None end
      | _ => fun _ => None
      end r
  | Dealloc => None
  end.

(** The event is a confirmation dialog that the operator declined. *)
Definition is_rejection (e : Event) : bool :=
  match dialog_answer e with
  | Some a => negb (truthy a)
  | None => false
  end.

(** In a list of dialog components, the copyable text that follows the
    label [text label]. *)
Fixpoint copyable_after (label : string) (children : list Component)
  : option string :=
  match children with
  | [] => None
  | c :: rest =>
      match c, rest with
      | text l, copyable a :: _ =>
          if String.eqb l label then Some a else copyable_after label rest
      | _, _ => copyable_after label rest
      end
  end.

(** The sender address a confirmation dialog displays. *)
Definition shown_address (d : DialogParams) : option string :=
  match content d with
  | panel children => copyable_after "from address:" children
  | _ => None
  end.

(** The request names a known method and its parameters pass that method's
    struct. *)
Definition passes_validation (request : Request) : bool :=
  if String.eqb (method request) "getAddress" then
    match validate (params request) GetAddressStruct with
    | inr _ => true
    | inl _ => false
    end
  else if String.eqb (method request) "signTransaction" then
    match validate (params request) SignTransactionStruct with
    | inr _ => true
    | inl _ => false
    end
  else false.

(** The property names [TransactionStruct] knows. *)
Definition envelope_fields : list string :=
  ["call"; "chain_id"; "max_priority_fee_bips"; "max_fee"; "gas_limit";
   "nonce"].

(* ================================================================= *)
(** ** A concrete host, to run the handler on examples *)

Module Demo.

#[export] Instance builtins : JsBuiltins := {|
  to_string := fun _ => "0";
  JSON_stringify := fun _ => "{}";
  StructError_toString := fun f => ("Expected " ++ f_type f)%string
|}.

Definition answer (approve : bool) (c : Call) : Outcome (ret_type c) :=
  match c return Outcome (ret_type c) with
  | snap_getBip32PublicKey _ => inr (JString "0x00abcd")
  | snap_getBip32Entropy _ => inr (JObject [])
  | SLIP10Node_fromJSON _ =>
      inr {| publicKey := "0x00abcd"; privateKey := Some "0x1234" |}
  | snap_dialog _ => inr (JBool approve)
  | bechEncodePublicKey pk => inr ("sov1" ++ pk)%string
  | serializeCall _ => inr [x01]
  | serializeUnsignedTransaction _ => inr [x02; x03]
  | serializeTransaction _ => inr [xff; x0a]
  | sign m _ => inr (x09 :: m)
  end.

(** The world counts the releases. *)
Definition host (approve : bool) : Host nat := {|
  host_call := fun c w => (w, answer approve c);
  host_dealloc := S
|}.

Definition num (z : Z) : JsValue := JNumber (Finite (inject_Z z)).

Definition transaction : JsValue :=
  JObject [("call", JObject [("bank", JObject [])]);
           ("nonce", num 0);
           ("chain_id", num 4321);
           ("max_priority_fee_bips", num 0);
           ("max_fee", num 10000);
           ("gas_limit", JArray [])].

Definition sign_request : Request :=
  {| method := "signTransaction";
     params := JObject [("keyId", num 0); ("transaction", transaction)] |}.

Definition address_request (keyId : JsValue) : Request :=
  {| method := "getAddress"; params := JObject [("keyId", keyId)] |}.

Definition run (approve : bool) (request : Request)
  : Trace * nat * Outcome string :=
  @onRpcRequest builtins nat (host approve) "https://dapp.example" request 0%nat.

End Demo.

(* ================================================================= *)
(** ** Further observations on traces *)

(** The error a collaborator threw, when the event is a call that threw. *)
Definition thrown_by (e : Event) : option JsError :=
  match e with
  | Called _ (inl er) => Some er
  | _ => None
  end.

Definition is_dialog (e : Event) : bool :=
  match call_of e with
  | Some (snap_dialog _) => true
  | _ => false
  end.

Definition is_sign (e : Event) : bool :=
  match call_of e with
  | Some (sign _ _) => true
  | _ => false
  end.

(** Calls that obtain or use private key material. *)
Definition touches_private_key (e : Event) : bool :=
  match call_of e with
  | Some (snap_getBip32Entropy _) | Some (SLIP10Node_fromJSON _)
  | Some (sign _ _) => true
  | _ => false
  end.

(** The copyable text a dialog displays under a label. *)
Definition shown_value (label : string) (d : DialogParams) : option string :=
  match content d with
  | panel children => copyable_after label children
  | _ => None
  end.

(** What [optional(array(number()))] asks of [gas_limit]. *)
Definition gas_limit_ok (v : JsValue) : bool :=
  match v with
  | JUndefined => true
  | JArray items => forallb is_number items
  | _ => false
  end.

(** What [TransactionStruct] asks of an envelope. *)
Definition envelope_ok (tx : JsValue) : bool :=
  isObject tx
  && isObject (get_prop "call" tx)
  && is_number (get_prop "chain_id" tx)
  && is_number (get_prop "max_priority_fee_bips" tx)
  && is_number (get_prop "max_fee" tx)
  && gas_limit_ok (get_prop "gas_limit" tx)
  && is_number (get_prop "nonce" tx)
  && forallb (fun k => existsb (String.eqb k) envelope_fields)
       (keys (own_entries tx)).

(** What [SignTransactionStruct] asks of the parameters. *)
Definition sign_params_ok (p : JsValue) : bool :=
  isObject p
  && envelope_ok (get_prop "transaction" p)
  && is_number (get_prop "keyId" p)
  && forallb (fun k => existsb (String.eqb k) ["transaction"; "keyId"])
       (keys (own_entries p)).

(** The custody-gateway call a method starts with. *)
Definition custody_call (m : string) (kp : KeypairParams) : Call :=
  if String.eqb m "getAddress" then snap_getBip32PublicKey kp
  else snap_getBip32Entropy kp.

(** The value of a lower-case hexadecimal digit. *)
Definition hex_value (c : ascii) : option N :=
  let code := N_of_ascii c in
  if ((48 <=? code) && (code <=? 57))%N then Some (code - 48)%N
  else if ((97 <=? code) && (code <=? 102))%N then Some (code - 87)%N
  else None.

(** Reads pairs of hexadecimal digits back into bytes. *)
Fixpoint hex_pairs_to_bytes (s : string) : option (list byte) :=
  match s with
  | EmptyString => Some []
  | String hi (String lo rest) =>
      match hex_value hi, hex_value lo, hex_pairs_to_bytes rest with
      | Some h, Some l, Some bytes =>
          match Byte.of_N (16 * h + l) with
          | Some b => Some (b :: bytes)
          | None => None
          end
      | _, _, _ => None
      end
  | String _ EmptyString => None
  end.

(* ================================================================= *)
(** ** The site's form (packages/site/src/components/Sovereign.tsx) *)

Module Site.

(** The form analyses text character by character (white space, digits,
    separators), so here a string is the list of its UTF-16 code units,
    a [list N]. *)

(** The code units of an ASCII literal. *)
Definition units (s : string) : list N :=
  map N_of_ascii (list_ascii_of_string s).

(** White space and line terminators, as [trim] and [parseInt] skip
    them. *)
Definition is_white_space (c : N) : bool :=
  match c with
  | 9 | 10 | 11 | 12 | 13 | 32 | 160 | 5760 | 8232 | 8233 | 8239 | 8287
  | 12288 | 65279 => true
  | _ => (8192 <=? c) && (c <=? 8202)
  end%N.

Definition is_digit (c : N) : bool := ((48 <=? c) && (c <=? 57))%N.

Fixpoint drop_white_space (s : list N) : list N :=
  match s with
  | [] => []
  | c :: rest => if is_white_space c then drop_white_space rest else s
  end.

(** [s.trim()] *)
Definition trim (s : list N) : list N :=
  rev (drop_white_space (rev (drop_white_space s))).

(** [s.split(sep)] for a separator of one code unit. *)
Fixpoint split (sep : N) (s : list N) : list (list N) :=
  match s with
  | [] => [[]]
  | c :: rest =>
      if N.eqb c sep then [] :: split sep rest
      else match split sep rest with
           | item :: items => (c :: item) :: items
           | [] => [[c]]
           end
  end.

Fixpoint leading_digits (s : list N) : list N :=
  match s with
  | [] => []
  | c :: rest => if is_digit c then c :: leading_digits rest else []
  end.

(** The integer a string of decimal digits denotes. *)
Definition digits_value (digits : list N) : Z :=
  fold_left (fun acc c => 10 * acc + (Z.of_N c - 48))%Z digits 0%Z.

(** The Number value of an integer: the nearest double, ties to even, an
    infinity beyond the largest double.  The two zeros are one value. *)
Definition number_value (z : Z) : JsNum :=
  let a := Z.abs z in
  if (a <? 2 ^ 53)%Z then Finite (inject_Z z)
  else
    let e := (Z.log2 a - 52)%Z in
    let m := Z.shiftr a e in
    let r := (a - Z.shiftl m e)%Z in
    let half := Z.shiftl 1 (e - 1) in
    let m' := if (half <? r)%Z || ((half =? r)%Z && Z.odd m)
              then (m + 1)%Z else m in
    let v := Z.shiftl m' e in
    if (2 ^ 1024 <=? v)%Z then Infinite (z <? 0)%Z
    else Finite (inject_Z (Z.sgn z * v)).

(** [parseInt(s, 10)] *)
Definition parseInt10 (s : list N) : JsNum :=
  let S := drop_white_space s in
  let signed :=
    match S with
    | 45%N :: rest => ((-1)%Z, rest)
    | 43%N :: rest => (1%Z, rest)
    | _ => (1%Z, S)
    end in
  match leading_digits (snd signed) with
  | [] => NaN
  | digits => number_value (fst signed * digits_value digits)
  end.

Definition isNaN (n : JsNum) : bool :=
  match n with
  | NaN => true
  | _ => false
  end.

(** [n >= 0] *)
Definition ge_zero (n : JsNum) : bool :=
  match n with
  | Finite q => Qle_bool 0 q
  | Infinite negative => negb negative
  | NaN => false
  end.

Definition is_empty (s : list N) : bool :=
  match s with
  | [] => true
  | _ :: _ => false
  end.

Definition trimTrailingSlash (str : list N) : list N :=
  if N.eqb (last str 0%N) 47 then removelast str else str.

Definition parseGasLimit (gasLimitString : list N) : option (list JsNum) :=
  if is_empty (trim gasLimitString) then None
  else
    Some (filter (fun item => negb (isNaN item) && ge_zero item)
            (map parseInt10
               (filter (fun item => negb (is_empty item))
                  (map trim (split 44 gasLimitString))))).

(** The gas limit as the value sent in a transaction. *)
Definition gas_limit_value (gasLimit : option (list JsNum)) : JsValue :=
  match gasLimit with
  | None => JUndefined
  | Some items => JArray (map JNumber items)
  end.

(** [array.join(sep)] *)
Fixpoint join (sep : list N) (items : list (list N)) : list N :=
  match items with
  | [] => []
  | [item] => item
  | item :: rest => item ++ sep ++ join sep rest
  end.

Fixpoint units_of_uint (d : Decimal.uint) : list N :=
  match d with
  | Decimal.Nil => []
  | Decimal.D0 d => 48%N :: units_of_uint d
  | Decimal.D1 d => 49%N :: units_of_uint d
  | Decimal.D2 d => 50%N :: units_of_uint d
  | Decimal.D3 d => 51%N :: units_of_uint d
  | Decimal.D4 d => 52%N :: units_of_uint d
  | Decimal.D5 d => 53%N :: units_of_uint d
  | Decimal.D6 d => 54%N :: units_of_uint d
  | Decimal.D7 d => 55%N :: units_of_uint d
  | Decimal.D8 d => 56%N :: units_of_uint d
  | Decimal.D9 d => 57%N :: units_of_uint d
  end.

(** The text of a non-negative integer below [2 ^ 53]: its decimal
    digits. *)
Definition decimal (n : N) : list N := units_of_uint (N.to_uint n).

(** [gasLimit.join(", ")], the gas limit as the form displays it. *)
Definition displayed_gas_limit (gasLimit : list N) : list N :=
  join (units ", ") (map decimal gasLimit).

(** An entry [parseGasLimit] can produce: a non-negative integer, or
    [Infinity] for digits beyond the largest double. *)
Definition gas_entry_ok (n : JsNum) : bool :=
  match n with
  | Finite _ => is_nonneg_integer (JNumber n)
  | Infinite negative => negb negative
  | NaN => false
  end.

Inductive Status : Type :=
| status_text (message : list N)
| status_data (responseData : JsValue).

Record SovereignState : Type := {
  keyId : option JsNum;
  callMessage : list N;
  chainId : option JsNum;
  maxPriorityFee : option JsNum;
  maxFee : option JsNum;
  gasLimit : option (list JsNum);
  nonce : JsNum;
  pk : option (list N);
  tx : option (list N);
  sequencer : option (list N);
  status : Status;
  address : option (list N)
}.

(** [/^[0-9\b]+$/u.test(value)]: one or more digits or backspaces. *)
Definition regex_test (value : list N) : bool :=
  negb (is_empty value)
  && forallb (fun c => is_digit c || N.eqb c 8) value.

Definition onKeyIdChange (state : SovereignState) (value : list N)
  : SovereignState :=
  if is_empty value then state
  else if is_empty value || regex_test value then
    {| keyId := Some (parseInt10 value);
       callMessage := callMessage state; chainId := chainId state;
       maxPriorityFee := maxPriorityFee state; maxFee := maxFee state;
       gasLimit := gasLimit state; nonce := nonce state; pk := pk state;
       tx := tx state; sequencer := sequencer state; status := status state;
       address := address state |}
  else state.

Definition onNonceChange (state : SovereignState) (value : list N)
  : SovereignState :=
  if is_empty value || regex_test value then
    {| keyId := keyId state;
       callMessage := callMessage state; chainId := chainId state;
       maxPriorityFee := maxPriorityFee state; maxFee := maxFee state;
       gasLimit := gasLimit state; nonce := parseInt10 value; pk := pk state;
       tx := tx state; sequencer := sequencer state; status := status state;
       address := address state |}
  else state.

Definition onChainIdChange (state : SovereignState) (value : list N)
  : SovereignState :=
  if is_empty value || regex_test value then
    {| keyId := keyId state;
       callMessage := callMessage state;
       chainId := Some (parseInt10 value);
       maxPriorityFee := maxPriorityFee state; maxFee := maxFee state;
       gasLimit := gasLimit state; nonce := nonce state; pk := pk state;
       tx := tx state; sequencer := sequencer state; status := status state;
       address := address state |}
  else state.

Definition onMaxPriorityFeeChange (state : SovereignState) (value : list N)
  : SovereignState :=
  if is_empty value || regex_test value then
    {| keyId := keyId state;
       callMessage := callMessage state; chainId := chainId state;
       maxPriorityFee := Some (parseInt10 value); maxFee := maxFee state;
       gasLimit := gasLimit state; nonce := nonce state; pk := pk state;
       tx := tx state; sequencer := sequencer state; status := status state;
       address := address state |}
  else state.

Definition onMaxFeeChange (state : SovereignState) (value : list N)
  : SovereignState :=
  if is_empty value || regex_test value then
    {| keyId := keyId state;
       callMessage := callMessage state; chainId := chainId state;
       maxPriorityFee := maxPriorityFee state;
       maxFee := Some (parseInt10 value);
       gasLimit := gasLimit state; nonce := nonce state; pk := pk state;
       tx := tx state; sequencer := sequencer state; status := status state;
       address := address state |}
  else state.

Definition onGasLimitChange (state : SovereignState) (value : list N)
  : SovereignState :=
  {| keyId := keyId state;
     callMessage := callMessage state; chainId := chainId state;
     maxPriorityFee := maxPriorityFee state; maxFee := maxFee state;
     gasLimit := parseGasLimit value; nonce := nonce state; pk := pk state;
     tx := tx state; sequencer := sequencer state; status := status state;
     address := address state |}.

Definition set_status (state : SovereignState) (s : Status)
  : SovereignState :=
  {| keyId := keyId state;
     callMessage := callMessage state; chainId := chainId state;
     maxPriorityFee := maxPriorityFee state; maxFee := maxFee state;
     gasLimit := gasLimit state; nonce := nonce state; pk := pk state;
     tx := tx state; sequencer := sequencer state; status := s;
     address := address state |}.

Record FetchOptions : Type := {
  fetch_method : list N;
  content_type : list N;
  body : list N
}.

(** What [submitSequencer] reads of a response; [json] is the parsed body
    or the message of the error thrown while parsing it. *)
Record Response : Type := {
  ok : bool;
  statusText : list N;
  json : list N + JsValue
}.

Section Submit.

(** [fetch(url, options)]: a response, or the message of the error it
    rejects with. *)
Variable fetch : list N -> FetchOptions -> (list N) + Response.

(** The state [submitSequencer] sets and the requests it sends. *)
Definition submitSequencer (state : SovereignState) (body endpoint : list N)
  : SovereignState * list ((list N) * FetchOptions) :=
  match sequencer state with
  | None | Some [] =>
      (set_status state (status_text (units "Sequencer URL field is empty")),
       [])
  | Some url =>
      let options := {| fetch_method := units "POST";
                        content_type := units "application/json";
                        body := body |} in
      let target := trimTrailingSlash url ++ units "/" ++ endpoint in
      match fetch target options with
      | inl message =>
          (set_status state (status_text message), [(target, options)])
      | inr response =>
          if negb (ok response) then
            (set_status state
               (status_text (units "Sequencer response was not ok "
                             ++ statusText response)),
             [(target, options)])
          else
            match json response with
            | inl message =>
                (set_status state (status_text message), [(target, options)])
            | inr responseData =>
                (set_status state (status_data responseData),
                 [(target, options)])
            end
      end
  end.

End Submit.

End Site.

(** The dialogs a run displayed, in order. *)
Definition dialogs_of (tr : Trace) : list DialogParams :=
  flat_map (fun e => match call_of e with
                     | Some (snap_dialog d) => [d]
                     | _ => []
                     end) tr.

(* ================================================================= *)
(** ** More concrete runs *)

Module Examples.

(** A host whose address encoder rejects every key. *)
Definition failing_answer (c : Call) : Outcome (ret_type c) :=
  match c as c0 return Outcome (ret_type c0) with
  | bechEncodePublicKey _ => inl (Error "invalid public key")
  | c0 => Demo.answer true c0
  end.

Definition failing_host : Host nat := {|
  host_call := fun c w => (w, failing_answer c);
  host_dealloc := S
|}.

Definition failing_run (request : Request) : Trace * nat * Outcome string :=
  @onRpcRequest Demo.builtins nat failing_host "https://dapp.example"
    request 0%nat.

(** The dialog of the approved demo run and the unsigned transaction it
    serializes. *)
Definition shown : DialogParams :=
  match dialogs_of (fst (fst (Demo.run true Demo.sign_request))) with
  | d :: _ => d
  | [] => {| dialog_type := Alert; content := panel [] |}
  end.

Definition unsignedTransaction : JsValue :=
  JObject [("nonce", Demo.num 0); ("chain_id", Demo.num 4321);
           ("max_priority_fee_bips", Demo.num 0);
           ("max_fee", Demo.num 10000); ("gas_limit", JArray []);
           ("runtime_msg", Array_from [x01])].

Definition form : Site.SovereignState := {|
  Site.keyId := Some (Finite 0);
  Site.callMessage := Site.units "{}";
  Site.chainId := Some (Finite 0);
  Site.maxPriorityFee := Some (Finite 0);
  Site.maxFee := Some (Finite (inject_Z 3000));
  Site.gasLimit := None;
  Site.nonce := Finite 0;
  Site.pk := None;
  Site.tx := None;
  Site.sequencer := Some (Site.units "http://localhost:12346/sequencer/");
  Site.status := Site.status_text [];
  Site.address := None
|}.

End Examples.

(* ================================================================= *)
(** ** Facts about objects and about validation *)

Section FieldFacts.

Lemma keys_set_prop :
  forall k v (fields : Fields) k',
    In k' (keys (set_prop k v fields)) <-> k' = k \/ In k' (keys fields).
Proof.
  intros k v fields k'. induction fields as [|[k0 v0] rest IH]; simpl.
  - intuition.
  - destruct (String.eqb k k0) eqn:E; simpl.
    + apply String.eqb_eq in E. subst k0. intuition.
    + rewrite IH. intuition.
Qed.

Lemma set_prop_fresh :
  forall k v (fields : Fields),
    ~ In k (keys fields) -> set_prop k v fields = fields ++ [(k, v)].
Proof.
  intros k v fields. induction fields as [|[k0 v0] rest IH]; simpl; intros Hk.
  - reflexivity.
  - destruct (String.eqb k k0) eqn:E.
    + apply String.eqb_eq in E. subst k0. tauto.
    + rewrite IH by tauto. reflexivity.
Qed.

Lemma NoDup_set_prop :
  forall k v (fields : Fields),
    NoDup (keys fields) -> NoDup (keys (set_prop k v fields)).
Proof.
  intros k v fields. induction fields as [|[k0 v0] rest IH]; simpl; intros Hnd.
  - constructor; [intros [] | constructor].
  - inversion Hnd as [|? ? Hnotin Hrest]; subst.
    destruct (String.eqb k k0) eqn:E; simpl.
    + apply String.eqb_eq in E. subst k0. constructor; assumption.
    + constructor; [| apply IH; assumption].
      rewrite keys_set_prop. intros [Heq | Hin]; [| tauto].
      subst k0. rewrite String.eqb_refl in E. discriminate.
Qed.

Lemma keys_spread_into :
  forall (src base : Fields) k,
    In k (keys (spread_into base src)) <-> In k (keys base) \/ In k (keys src).
Proof.
  unfold spread_into.
  induction src as [|[k0 v0] rest IH]; simpl; intros base k.
  - tauto.
  - rewrite IH, keys_set_prop. simpl. intuition congruence.
Qed.

Lemma NoDup_spread_into :
  forall (src base : Fields),
    NoDup (keys base) -> NoDup (keys (spread_into base src)).
Proof.
  unfold spread_into.
  induction src as [|[k0 v0] rest IH]; simpl; intros base Hnd.
  - assumption.
  - apply IH, NoDup_set_prop, Hnd.
Qed.

(** Spreading properties none of which is there yet appends them. *)
Lemma spread_into_fresh :
  forall (src base : Fields),
    NoDup (keys src) ->
    (forall k, In k (keys src) -> ~ In k (keys base)) ->
    spread_into base src = base ++ src.
Proof.
  unfold spread_into.
  induction src as [|[k0 v0] rest IH]; simpl; intros base Hnd Hfresh.
  - now rewrite app_nil_r.
  - inversion Hnd as [|? ? Hnotin Hrest]; subst.
    rewrite set_prop_fresh by (apply Hfresh; now left).
    rewrite IH; [now rewrite <- app_assoc | assumption |].
    intros k Hin. unfold keys. rewrite map_app, in_app_iff. simpl.
    intros [Hb | [Hk | []]].
    + apply (Hfresh k); [now right | assumption].
    + subst k. tauto.
Qed.

Lemma NoDup_keys_filter :
  forall (f : string * JsValue -> bool) (fields : Fields),
    NoDup (keys fields) -> NoDup (keys (filter f fields)).
Proof.
  intros f fields. induction fields as [|[k0 v0] rest IH]; simpl; intros Hnd.
  - constructor.
  - inversion Hnd as [|? ? Hnotin Hrest]; subst.
    destruct (f (k0, v0)); simpl; [constructor |]; auto.
    intros Hin. apply Hnotin. unfold keys in *.
    apply in_map_iff in Hin. destruct Hin as [[k1 v1] [Hk Hin]].
    apply filter_In in Hin. apply in_map_iff. exists (k1, v1). tauto.
Qed.

Lemma lookup_Some_key :
  forall k (fields : Fields) v,
    lookup k fields = Some v -> In k (keys fields).
Proof.
  intros k fields v. induction fields as [|[k0 v0] rest IH];
    cbn [lookup keys map fst]; intros Hl.
  - discriminate.
  - destruct (String.eqb k k0) eqn:E.
    + apply String.eqb_eq in E. left. now symmetry.
    + right. now apply IH.
Qed.

Lemma lookup_app :
  forall k (a b : Fields),
    lookup k (a ++ b) =
    match lookup k a with Some v => Some v | None => lookup k b end.
Proof.
  intros k a b. induction a as [|[k0 v0] rest IH]; simpl.
  - reflexivity.
  - destruct (String.eqb k k0); [reflexivity | exact IH].
Qed.

Lemma lookup_omit_other :
  forall key k (fields : Fields),
    k <> key ->
    lookup k (filter (fun kv => negb (String.eqb key (fst kv))) fields)
    = lookup k fields.
Proof.
  intros key k fields Hne. induction fields as [|[k0 v0] rest IH]; simpl.
  - reflexivity.
  - destruct (String.eqb key k0) eqn:E; simpl.
    + apply String.eqb_eq in E. subst k0.
      apply String.eqb_neq in Hne. now rewrite Hne.
    + now rewrite IH.
Qed.

Lemma lookup_omitted :
  forall key (fields : Fields),
    lookup key (filter (fun kv => negb (String.eqb key (fst kv))) fields)
    = None.
Proof.
  intros key fields. induction fields as [|[k0 v0] rest IH]; simpl.
  - reflexivity.
  - destruct (String.eqb key k0) eqn:E; simpl; [| rewrite E]; exact IH.
Qed.

Lemma keys_omitKey :
  forall key obj k,
    In k (keys (omitKey key obj)) ->
    k <> key /\ In k (keys (own_entries obj)).
Proof.
  intros key obj k Hin. unfold omitKey, keys in *.
  apply in_map_iff in Hin. destruct Hin as [[k1 v1] [Hk Hin]].
  simpl in Hk. subst k1. apply filter_In in Hin. destruct Hin as [Hin Hf].
  simpl in Hf. split.
  - intros ->. rewrite String.eqb_refl in Hf. discriminate.
  - apply in_map_iff. now exists (k, v1).
Qed.

(** [s] is its first two characters followed by [s.slice(2)]. *)
Lemma slice_2_split :
  forall s : string, s = (substring 0 2 s ++ slice 2 s)%string.
Proof.
  intros [|a [|b rest]]; simpl; try reflexivity.
  f_equal. f_equal. clear. destruct rest; reflexivity.
Qed.

End FieldFacts.

Section ValidationFacts.

Lemma validate_inr :
  forall v s p, validate v s = inr p -> p = v /\ failures s [] v = [].
Proof.
  unfold validate. intros v s p Hv.
  destruct (failures s [] v); [| discriminate].
  inversion Hv. split; reflexivity.
Qed.

Lemma validate_inl :
  forall v s, failures s [] v <> [] -> exists f, validate v s = inl f.
Proof.
  unfold validate. intros v s Hne.
  destruct (failures s [] v) as [|f rest]; [congruence | now exists f].
Qed.

(** An [object] struct that reports nothing saw an object, all of whose
    schema fields pass and none of whose properties is unknown. *)
Lemma object_no_failures :
  forall schema path v,
    failures (object schema) path v = [] ->
    isObject v = true
    /\ (forall k s, In (k, s) schema ->
                    failures s (path ++ [k]) (get_prop k v) = [])
    /\ (forall k, In k (keys (own_entries v)) -> known_key schema k = true).
Proof.
  intros schema path v Hf. cbn [failures] in Hf.
  destruct (isObject v); [| discriminate].
  apply app_eq_nil in Hf. destruct Hf as [Hknown Hunknown].
  split; [reflexivity | split].
  - clear Hunknown. induction schema as [|[k0 s0] rest IH]; intros k s Hin.
    + destruct Hin.
    + apply app_eq_nil in Hknown. destruct Hknown as [H0 Hrest].
      destruct Hin as [Heq | Hin]; [inversion Heq; subst; exact H0 |].
      now apply IH.
  - intros k Hin. apply map_eq_nil in Hunknown.
    unfold keys in Hin. apply in_map_iff in Hin.
    destruct Hin as [[k1 v1] [Hk Hin]]. simpl in Hk. subst k1.
    destruct (known_key schema k) eqn:E; [reflexivity |].
    assert (Hmem : In (k, v1)
              (filter (fun kv => negb (known_key schema (fst kv)))
                 (own_entries v))).
    { apply filter_In. simpl. rewrite E. auto. }
    rewrite Hunknown in Hmem. destruct Hmem.
Qed.

Lemma object_field_failure :
  forall schema path v k s,
    In (k, s) schema ->
    failures s (path ++ [k]) (get_prop k v) <> [] ->
    failures (object schema) path v <> [].
Proof.
  intros schema path v k s Hin Hne Hnil.
  apply object_no_failures in Hnil. destruct Hnil as [_ [Hall _]].
  apply Hne, Hall, Hin.
Qed.

Lemma number_failures :
  forall path v, failures number path v = [] <-> is_number v = true.
Proof.
  intros path v. simpl. destruct (is_number v); split; congruence.
Qed.

(** What [SignTransactionStruct] has established about accepted
    parameters. *)
Lemma SignTransactionStruct_accepts :
  forall v p,
    validate v SignTransactionStruct = inr p ->
    p = v
    /\ is_number (get_prop "keyId" v) = true
    /\ failures TransactionStruct ["transaction"] (get_prop "transaction" v) = []
    /\ (forall k, In k (keys (own_entries v)) -> k = "transaction" \/ k = "keyId").
Proof.
  intros v p Hv. apply validate_inr in Hv. destruct Hv as [-> Hf].
  apply object_no_failures in Hf. destruct Hf as [_ [Hall Hknown]].
  repeat split.
  - apply (number_failures ([] ++ ["keyId"])), Hall. simpl. auto.
  - apply (Hall "transaction"). simpl. auto.
  - intros k Hin. apply Hknown in Hin. unfold known_key in Hin. simpl in Hin.
    rewrite orb_false_r in Hin. apply orb_prop in Hin.
    destruct Hin as [E | E]; apply String.eqb_eq in E; auto.
Qed.

Lemma TransactionStruct_accepts :
  forall path tx,
    failures TransactionStruct path tx = [] ->
    forall k, In k (keys (own_entries tx)) -> In k envelope_fields.
Proof.
  intros path tx Hf k Hin.
  apply object_no_failures in Hf. destruct Hf as [_ [_ Hknown]].
  apply Hknown in Hin. unfold known_key in Hin.
  apply existsb_exists in Hin. destruct Hin as [k' [Hin' E]].
  apply String.eqb_eq in E. subst k'. exact Hin'.
Qed.

End ValidationFacts.

(* ================================================================= *)
(** ** Properties of the handler *)

(** Unfolds the handler down to the calls it makes. *)
Ltac unfold_run :=
  unfold onRpcRequest, getAddress_body, signTransaction_body,
    confirmation_content, M.try_catch, M.bind, M.call, M.dealloc, M.lift,
    M.ret, M.throw in *.

(** Follows a run recorded in [H] along every path: each call either
    throws or returns, each test goes either way. *)
Ltac split_run H :=
  repeat (cbn beta iota zeta delta [negb] in H;
    match type of H with
    | context [host_call ?c ?w] =>
        let r := fresh "r" in
        let w' := fresh "w" in
        destruct (host_call c w) as [w' [?|r]] eqn:?
    | context [cleanPublicKeyResponse ?v] =>
        destruct (cleanPublicKeyResponse v) as [?|?] eqn:?
    | context [assert_privateKey ?n] =>
        destruct (assert_privateKey n) as [?|?] eqn:?
    | context [toString ?v] =>
        destruct (toString v) as [?|?] eqn:?
    | context [gas_limit_text ?v] =>
        destruct (gas_limit_text v) as [?|?] eqn:?
    | context [truthy ?v] =>
        destruct (truthy v) eqn:?
    end);
  cbn in H.

Section Properties.

Context `{JsBuiltins} {World : Type} `{Host World}.

(** C8. A request whose method is neither [getAddress] nor
    [signTransaction] fails with the plain error 'Method not found.';
    the answer does not depend on the parameters (no validation), no
    collaborator is called (empty trace: no custody gateway, no codec)
    and the world is left as it was. *)
Theorem unknown_method_not_found :
  forall (origin : string) (request : Request) (w : World),
    method request <> "getAddress" ->
    method request <> "signTransaction" ->
    onRpcRequest origin request w = ([], w, inl (Error "Method not found.")).
Proof.
  intros origin request w Hga Hst.
  unfold onRpcRequest.
  apply String.eqb_neq in Hga, Hst.
  rewrite Hga, Hst.
  reflexivity.
Qed.

Lemma signedTransaction_shape :
  forall path transaction runtime_msg sig pk,
    failures TransactionStruct path transaction = [] ->
    signedTransaction_of sig pk (unsignedTransaction_of transaction runtime_msg)
    = JObject ([("signature", JObject [("msg_sig", sig)]);
                ("pub_key", JString pk)]
               ++ own_entries (unsignedTransaction_of transaction runtime_msg)).
Proof.
  intros path transaction runtime_msg sig pk Hok.
  unfold signedTransaction_of. f_equal.
  apply spread_into_fresh.
  - simpl. apply NoDup_set_prop, NoDup_spread_into. constructor.
  - simpl. intros k Hin.
    apply keys_set_prop in Hin.
    assert (Hk : k = "runtime_msg" \/ In k envelope_fields).
    { destruct Hin as [Hin | Hin]; [now left | right].
      apply keys_spread_into in Hin. destruct Hin as [[] | Hin].
      apply keys_omitKey in Hin.
      eapply TransactionStruct_accepts; [exact Hok | tauto]. }
    unfold envelope_fields in Hk. simpl in Hk.
    intros [E | [E | []]]; subst k;
      repeat (destruct Hk as [Hk | Hk]; try discriminate Hk); auto.
Qed.

Lemma signTransaction_body_success :
  forall origin transaction kp (w : World) tr w' txHex,
    signTransaction_body origin transaction kp w = (tr, w', inr txHex) ->
    exists entropy node key address shown approved
           runtime_bytes serialized sig_bytes tx_bytes,
      let pk := slice 2 (remove0x (publicKey node)) in
      let unsignedTransaction :=
        unsignedTransaction_of transaction (Array_from runtime_bytes) in
      let signedTransaction :=
        signedTransaction_of (Array_from sig_bytes) pk unsignedTransaction in
      tr = [Called (snap_getBip32Entropy kp) (inr entropy);
            Called (SLIP10Node_fromJSON entropy) (inr node);
            Called (bechEncodePublicKey pk) (inr address);
            Called (snap_dialog shown) (inr approved);
            Called (serializeCall (get_prop "call" transaction))
              (inr runtime_bytes);
            Called (serializeUnsignedTransaction unsignedTransaction)
              (inr serialized);
            Called (sign serialized (remove0x key)) (inr sig_bytes);
            Called (serializeTransaction signedTransaction) (inr tx_bytes);
            Dealloc]
      /\ privateKey node = Some key
      /\ shown_address shown = Some address
      /\ truthy approved = true
      /\ txHex = bytesToHex tx_bytes.
Proof.
  intros origin transaction kp w tr w' txHex Hrun.
  unfold_run. split_run Hrun; try discriminate Hrun.
  inversion Hrun; subst; clear Hrun.
  match goal with
  | Hc : cleanPublicKeyResponse _ = inr _ |- _ =>
      simpl in Hc; inversion Hc; subst; clear Hc
  end.
  match goal with
  | Ha : assert_privateKey ?n = inr ?k |- _ =>
      unfold assert_privateKey in Ha;
      destruct (privateKey n) as [k'|] eqn:Hkey; [| discriminate Ha];
      destruct (String.eqb k' ""); [discriminate Ha |];
      inversion Ha; subst; clear Ha
  end.
  repeat eexists; try eassumption; reflexivity.
Qed.


(** C1. When the operator declines at the confirmation dialog (the
    dialog's answer is falsy), the handler throws the user-rejection
    error; the dialog is followed by nothing but the release of the codec,
    the run contains no call of the canonical encoder ([serializeCall],
    [serializeUnsignedTransaction], [serializeTransaction]) and no call of
    the signer, and the codec is released, once. *)
Theorem rejection_stops_before_encoding :
  forall origin request (w : World) tr w' r,
    onRpcRequest origin request w = (tr, w', r) ->
    existsb is_rejection tr = true ->
    r = inl UserRejectedRequest
    /\ (exists pre shown answer,
          tr = pre ++ [Called (snap_dialog shown) (inr answer); Dealloc]
          /\ truthy answer = false)
    /\ existsb is_encoder_or_signer tr = false
    /\ count_dealloc tr = 1%nat.
Proof.
  intros origin [m p] w tr w' r Hrun Hrej.
  unfold_run. cbn [method params] in Hrun.
  destruct (String.eqb m "getAddress");
    [destruct (validate p GetAddressStruct) |
     destruct (String.eqb m "signTransaction");
     [destruct (validate p SignTransactionStruct) |]].
  all: split_run Hrun; inversion Hrun; subst; clear Hrun.
  all: cbn in Hrej;
    repeat match goal with
           | Ht : truthy _ = _ |- _ => rewrite Ht in Hrej
           end;
    try discriminate Hrej.
  split; [reflexivity | split; [| split; reflexivity]].
  eexists [_; _; _], _, _. split; [reflexivity | assumption].
Qed.

(** C4, amended.  On every exit path of a request that passed validation
    (a returned value, a user rejection, an exception of the custody
    gateway, the key tree, the codec or the signer) the codec is released
    exactly once, as the last thing the handler does; a request that
    fails validation, or names an unknown method, makes no call at all and
    releases nothing. *)
Theorem release_exactly_once_after_validation :
  forall origin request (w : World),
    let tr := fst (fst (onRpcRequest origin request w)) in
    if passes_validation request
    then count_dealloc tr = 1%nat /\ exists pre, tr = pre ++ [Dealloc]
    else tr = [].
Proof.
  intros origin [m p] w.
  destruct (onRpcRequest origin {| method := m; params := p |} w)
    as [[tr w'] r] eqn:Hrun.
  unfold passes_validation. unfold_run. cbn [method params fst] in *.
  destruct (String.eqb m "getAddress");
    [destruct (validate p GetAddressStruct) |
     destruct (String.eqb m "signTransaction");
     [destruct (validate p SignTransactionStruct) |]].
  all: split_run Hrun; inversion Hrun; subst; try reflexivity.
  all: split; [reflexivity |].
  all: first [ now exists []
             | now eexists [_]
             | now eexists [_; _]
             | now eexists [_; _; _]
             | now eexists [_; _; _; _]
             | now eexists [_; _; _; _; _]
             | now eexists [_; _; _; _; _; _]
             | now eexists [_; _; _; _; _; _; _]
             | now eexists [_; _; _; _; _; _; _; _] ].
Qed.

(** C6. When the parameters of a [getAddress] or [signTransaction]
    request fail their struct, the handler throws the invalid-params error
    built from the first failure, with an empty trace (no custody-gateway
    call, no use of the codec) and the world untouched. *)
Theorem validation_error_before_any_call :
  forall origin request (w : World),
    method request = "getAddress" \/ method request = "signTransaction" ->
    passes_validation request = false ->
    exists f,
      (method request = "getAddress"
       /\ validate (params request) GetAddressStruct = inl f
       \/ method request = "signTransaction"
          /\ validate (params request) SignTransactionStruct = inl f)
      /\ onRpcRequest origin request w
         = ([], w, inl (InvalidParams (StructError_toString f))).
Proof.
  intros origin [m p] w Hm Hfail.
  unfold passes_validation, onRpcRequest in *. cbn [method params] in *.
  destruct Hm as [-> | ->]; cbn [String.eqb Ascii.eqb Bool.eqb] in *.
  - destruct (validate p GetAddressStruct) as [f |]; [| discriminate].
    exists f. split; [left; split |]; reflexivity.
  - destruct (validate p SignTransactionStruct) as [f |]; [| discriminate].
    exists f. split; [right; split |]; reflexivity.
Qed.

(** C5, amended.  For [getAddress] and [signTransaction] the validator
    asks of [keyId] that it is present and is a number other than NaN:
    a missing or non-number [keyId] fails with the invalid-params error
    carrying the validator's description, before any call; accepted
    parameters have a number as [keyId]; and [getAddress] accepts every
    object whose [keyId] is such a number, negative and fractional ones
    included. *)
Theorem keyId_must_be_a_number :
  forall origin request (w : World),
    method request = "getAddress" \/ method request = "signTransaction" ->
    (is_number (get_prop "keyId" (params request)) = false ->
     exists f,
       onRpcRequest origin request w
       = ([], w, inl (InvalidParams (StructError_toString f))))
    /\ (passes_validation request = true ->
        is_number (get_prop "keyId" (params request)) = true)
    /\ (method request = "getAddress" ->
        isObject (params request) = true ->
        is_number (get_prop "keyId" (params request)) = true ->
        passes_validation request = true).
Proof.
  intros origin [m p] w Hm. cbn [method params] in *.
  assert (Hga : is_number (get_prop "keyId" p) = false ->
                exists f, validate p GetAddressStruct = inl f).
  { intros Hnum. apply validate_inl. simpl.
    destruct (isObject p); [| discriminate].
    rewrite Hnum. discriminate. }
  assert (Hst : is_number (get_prop "keyId" p) = false ->
                exists f, validate p SignTransactionStruct = inl f).
  { intros Hnum. apply validate_inl.
    apply (object_field_failure _ _ _ "keyId" number); [simpl; auto |].
    simpl. rewrite Hnum. discriminate. }
  unfold passes_validation, onRpcRequest. cbn [method params].
  destruct Hm as [-> | ->]; cbn [String.eqb Ascii.eqb Bool.eqb].
  - split; [| split].
    + intros Hnum. destruct (Hga Hnum) as [f ->]. now exists f.
    + destruct (is_number (get_prop "keyId" p)); [reflexivity |].
      destruct Hga as [f ->]; [reflexivity | discriminate].
    + intros _ Hobj Hnum. unfold validate. simpl.
      rewrite Hobj, Hnum. reflexivity.
  - split; [| split].
    + intros Hnum. destruct (Hst Hnum) as [f ->]. now exists f.
    + destruct (is_number (get_prop "keyId" p)); [reflexivity |].
      destruct Hst as [f ->]; [reflexivity | discriminate].
    + discriminate.
Qed.

(** C7. In a [getAddress] request that returns an address, the custody
    gateway's raw response is a string; the key handed to the address
    encoder is that string without its [0x] prefix and without the next
    two characters (the one-byte flag), nothing else is removed, and the
    address returned is the encoder's answer for that normalized key. *)
Theorem address_from_normalized_key :
  forall origin request (w : World) tr w' address,
    method request = "getAddress" ->
    onRpcRequest origin request w = (tr, w', inr address) ->
    exists raw,
      let normalized := slice 2 (remove0x raw) in
      tr = [Called (snap_getBip32PublicKey
                      (getKeypairParams (get_prop "keyId" (params request))))
              (inr (JString raw));
            Called (bechEncodePublicKey normalized) (inr address);
            Dealloc]
      /\ cleanPublicKeyResponse (JString raw) = inr normalized
      /\ remove0x raw = (substring 0 2 (remove0x raw) ++ normalized)%string.
Proof.
  intros origin [m p] w tr w' address Hm Hrun.
  cbn [method params] in *. subst m.
  unfold_run. cbn [method params String.eqb Ascii.eqb Bool.eqb] in Hrun.
  destruct (validate p GetAddressStruct) as [f | p'] eqn:Hv;
    [discriminate Hrun |].
  apply validate_inr in Hv. destruct Hv as [-> _].
  split_run Hrun; try discriminate Hrun.
  inversion Hrun; subst; clear Hrun.
  match goal with
  | Hc : cleanPublicKeyResponse ?v = inr _ |- _ =>
      destruct v; try discriminate Hc;
      simpl in Hc; inversion Hc; subst; clear Hc
  end.
  eexists. split; [reflexivity | split; [reflexivity |]].
  apply slice_2_split.
Qed.

Lemma unsignedTransaction_entries :
  forall path transaction runtime_msg,
    failures TransactionStruct path transaction = [] ->
    NoDup (keys (own_entries transaction)) ->
    own_entries (unsignedTransaction_of transaction runtime_msg)
    = filter (fun kv => negb (String.eqb "call" (fst kv)))
        (own_entries transaction)
      ++ [("runtime_msg", runtime_msg)].
Proof.
  intros path transaction runtime_msg Hok Hnd.
  unfold unsignedTransaction_of. cbn [own_entries].
  rewrite (spread_into_fresh (omitKey "call" transaction) []).
  - cbn [app]. apply set_prop_fresh. intros Hin.
    apply keys_omitKey in Hin. destruct Hin as [_ Hin].
    apply (TransactionStruct_accepts _ _ Hok) in Hin.
    unfold envelope_fields in Hin. simpl in Hin.
    repeat (destruct Hin as [Hin | Hin]; try discriminate Hin). exact Hin.
  - apply NoDup_keys_filter, Hnd.
  - intros k _ [].
Qed.

Lemma unsignedTransaction_fields :
  forall path transaction runtime_msg,
    failures TransactionStruct path transaction = [] ->
    NoDup (keys (own_entries transaction)) ->
    let unsignedTransaction :=
      unsignedTransaction_of transaction runtime_msg in
    get_prop "runtime_msg" unsignedTransaction = runtime_msg
    /\ lookup "call" (own_entries unsignedTransaction) = None
    /\ forall k, k <> "call" -> k <> "runtime_msg" ->
                 get_prop k unsignedTransaction = get_prop k transaction.
Proof.
  intros path transaction runtime_msg Hok Hnd u. subst u.
  unfold get_prop.
  rewrite (unsignedTransaction_entries path) by assumption.
  assert (Hrm : lookup "runtime_msg" (own_entries transaction) = None).
  { destruct (lookup "runtime_msg" (own_entries transaction)) eqn:E;
      [| reflexivity].
    apply lookup_Some_key in E. rename E into Hin.
    apply (TransactionStruct_accepts _ _ Hok) in Hin.
    unfold envelope_fields in Hin. simpl in Hin.
    repeat (destruct Hin as [Hin | Hin]; try discriminate Hin).
    destruct Hin. }
  repeat split.
  - rewrite lookup_app, lookup_omit_other by discriminate.
    rewrite Hrm. reflexivity.
  - rewrite lookup_app, lookup_omitted. reflexivity.
  - intros k Hc Hr. rewrite lookup_app, lookup_omit_other by assumption.
    destruct (lookup k (own_entries transaction)); [reflexivity |].
    simpl. apply String.eqb_neq in Hr. now rewrite Hr.
Qed.

(** C3. Whenever the handler asks the codec to serialize an unsigned
    transaction, that object is the validated envelope (whose property
    names are distinct, as in every JavaScript object) without [call],
    its other properties in their order and with their values, followed
    by [runtime_msg], the codec's serialization of [call]. *)
Theorem unsigned_transaction_replaces_only_call :
  forall origin request (w : World) tr w' r unsignedTransaction,
    onRpcRequest origin request w = (tr, w', r) ->
    In (Some (serializeUnsignedTransaction unsignedTransaction))
      (map call_of tr) ->
    let transaction := get_prop "transaction" (params request) in
    NoDup (keys (own_entries transaction)) ->
    exists runtime_bytes,
      In (Called (serializeCall (get_prop "call" transaction))
            (inr runtime_bytes)) tr
      /\ own_entries unsignedTransaction
         = filter (fun kv => negb (String.eqb "call" (fst kv)))
             (own_entries transaction)
           ++ [("runtime_msg", Array_from runtime_bytes)]
      /\ get_prop "runtime_msg" unsignedTransaction = Array_from runtime_bytes
      /\ lookup "call" (own_entries unsignedTransaction) = None
      /\ forall k, k <> "call" -> k <> "runtime_msg" ->
                   get_prop k unsignedTransaction = get_prop k transaction.
Proof.
  intros origin [m p] w tr w' r u Hrun Hin transaction Hnd.
  subst transaction. cbn [method params] in *.
  unfold_run. cbn [method params] in Hrun.
  destruct (String.eqb m "getAddress");
    [destruct (validate p GetAddressStruct) |
     destruct (String.eqb m "signTransaction");
     [destruct (validate p SignTransactionStruct) as [f | p'] eqn:Hv |]].
  all: try (apply SignTransactionStruct_accepts in Hv;
            destruct Hv as [-> [_ [Hok _]]]).
  all: split_run Hrun; inversion Hrun; subst; clear Hrun.
  all: cbn in Hin;
    repeat (destruct Hin as [Hin | Hin]; try discriminate Hin);
    try (destruct Hin; fail).
  all: injection Hin as <-.
  all: eexists; split; [cbn; tauto |].
  all: split; [apply (unsignedTransaction_entries _ _ _ Hok Hnd) |].
  all: apply (unsignedTransaction_fields _ _ _ Hok Hnd).
Qed.

(** C2. A [signTransaction] request that returns a value ends with these
    calls, the only calls of the encoder and signer in the run: [call] is
    serialized; the unsigned transaction is serialized; the signer signs
    exactly the bytes that serialization returned; the object
    [{ signature: { msg_sig }, pub_key, ...unsignedTransaction }] is
    serialized; the codec is released.  The value returned is the hex
    encoding of the last serialization. *)
Theorem signature_over_canonical_unsigned_bytes :
  forall origin request (w : World) tr w' txHex,
    method request = "signTransaction" ->
    onRpcRequest origin request w = (tr, w', inr txHex) ->
    exists pre runtime_bytes serialized key sig_bytes pk tx_bytes,
      let transaction := get_prop "transaction" (params request) in
      let unsignedTransaction :=
        unsignedTransaction_of transaction (Array_from runtime_bytes) in
      let signedTransaction :=
        JObject ([("signature", JObject [("msg_sig", Array_from sig_bytes)]);
                  ("pub_key", JString pk)]
                 ++ own_entries unsignedTransaction) in
      tr = pre
           ++ [Called (serializeCall (get_prop "call" transaction))
                 (inr runtime_bytes);
               Called (serializeUnsignedTransaction unsignedTransaction)
                 (inr serialized);
               Called (sign serialized key) (inr sig_bytes);
               Called (serializeTransaction signedTransaction)
                 (inr tx_bytes);
               Dealloc]
      /\ existsb is_encoder_or_signer pre = false
      /\ txHex = bytesToHex tx_bytes.
Proof.
  intros origin [m p] w tr w' txHex Hm Hrun.
  cbn [method params] in *. subst m.
  unfold onRpcRequest in Hrun.
  cbn [method params String.eqb Ascii.eqb Bool.eqb] in Hrun.
  destruct (validate p SignTransactionStruct) as [f | p'] eqn:Hv;
    [discriminate Hrun |].
  apply SignTransactionStruct_accepts in Hv.
  destruct Hv as [-> [_ [Hok _]]].
  apply signTransaction_body_success in Hrun.
  destruct Hrun as (entropy & node & key & address & shown & approved
                    & runtime_bytes & serialized & sig_bytes & tx_bytes
                    & Htr & _ & _ & _ & Hhex).
  cbv zeta in Htr.
  rewrite (signedTransaction_shape _ _ _ _ _ Hok) in Htr.
  eexists [_; _; _; _], runtime_bytes, serialized, _, sig_bytes, _, tx_bytes.
  cbv zeta. split; [exact Htr | split; [reflexivity | exact Hhex]].
Qed.

(** C9. In a [signTransaction] request that returns a value, the
    [pub_key] of the signed transaction is the normalized public key of
    the SLIP-10 node whose private key the signer received, and the
    address displayed by the confirmation dialog is the encoding of that
    same normalized key. *)
Theorem displayed_address_is_of_signing_key :
  forall origin request (w : World) tr w' txHex,
    method request = "signTransaction" ->
    onRpcRequest origin request w = (tr, w', inr txHex) ->
    exists kp entropy node key address shown approved call_event
           unsignedTransaction serialized sig_bytes signedTransaction
           tx_bytes,
      let pk := slice 2 (remove0x (publicKey node)) in
      tr = [Called (snap_getBip32Entropy kp) (inr entropy);
            Called (SLIP10Node_fromJSON entropy) (inr node);
            Called (bechEncodePublicKey pk) (inr address);
            Called (snap_dialog shown) (inr approved);
            call_event;
            Called (serializeUnsignedTransaction unsignedTransaction)
              (inr serialized);
            Called (sign serialized (remove0x key)) (inr sig_bytes);
            Called (serializeTransaction signedTransaction) (inr tx_bytes);
            Dealloc]
      /\ privateKey node = Some key
      /\ cleanPublicKeyResponse (JString (publicKey node)) = inr pk
      /\ shown_address shown = Some address
      /\ get_prop "pub_key" signedTransaction = JString pk
      /\ get_prop "signature" signedTransaction
         = JObject [("msg_sig", Array_from sig_bytes)]
      /\ txHex = bytesToHex tx_bytes.
Proof.
  intros origin [m p] w tr w' txHex Hm Hrun.
  cbn [method params] in *. subst m.
  unfold onRpcRequest in Hrun.
  cbn [method params String.eqb Ascii.eqb Bool.eqb] in Hrun.
  destruct (validate p SignTransactionStruct) as [f | p'] eqn:Hv;
    [discriminate Hrun |].
  apply SignTransactionStruct_accepts in Hv.
  destruct Hv as [-> [_ [Hok _]]].
  apply signTransaction_body_success in Hrun.
  destruct Hrun as (entropy & node & key & address & shown & approved
                    & runtime_bytes & serialized & sig_bytes & tx_bytes
                    & Htr & Hkey & Hshown & _ & Hhex).
  cbv zeta in Htr.
  rewrite (signedTransaction_shape _ _ _ _ _ Hok) in Htr.
  do 13 eexists. cbv zeta.
  split; [exact Htr |].
  repeat split; try assumption; reflexivity.
Qed.

End Properties.

(** C10. [GetAddressStruct] is loose and [SignTransactionStruct] is strict:
    some parameters with [keyId], a valid transaction and one more property
    pass the first and fail the second, on the extra property; in general
    [getAddress] validation accepts every object with a number as [keyId],
    and [signTransaction] validation rejects every object with a property
    other than [transaction] and [keyId]. *)
Theorem loose_getAddress_strict_signTransaction :
  (exists params extra,
     get_prop "keyId" params = Demo.num 0
     /\ validate (get_prop "transaction" params) TransactionStruct
        = inr (get_prop "transaction" params)
     /\ keys (own_entries params) = ["keyId"; "transaction"; extra]
     /\ validate params GetAddressStruct = inr params
     /\ validate params SignTransactionStruct
        = inl (mkFailure [extra] "never" (get_prop extra params)))
  /\ (forall fields,
        is_number (get_prop "keyId" (JObject fields)) = true ->
        validate (JObject fields) GetAddressStruct = inr (JObject fields))
  /\ (forall fields k,
        In k (keys fields) -> k <> "transaction" -> k <> "keyId" ->
        exists f, validate (JObject fields) SignTransactionStruct = inl f).
Proof.
  split; [| split].
  - exists (JObject [("keyId", Demo.num 0);
                     ("transaction", Demo.transaction);
                     ("comment", JString "hello")]), "comment".
    repeat split.
  - intros fields Hnum. unfold validate. simpl in *. now rewrite Hnum.
  - intros fields k Hin Ht Hk. apply validate_inl. intros Hnil.
    apply object_no_failures in Hnil. destruct Hnil as [_ [_ Hknown]].
    specialize (Hknown k Hin). unfold known_key in Hknown. simpl in Hknown.
    apply String.eqb_neq in Ht, Hk. rewrite Ht, Hk in Hknown. discriminate.
Qed.

(* ================================================================= *)
(** ** Runs on the concrete host *)

Lemma unknown_method_not_found_witness :
  Demo.run true {| method := "foo"; params := JUndefined |}
  = ([], 0%nat, inl (Error "Method not found.")).
Proof.
  apply (@unknown_method_not_found Demo.builtins nat (Demo.host true));
    simpl; discriminate.
Defined.

Lemma rejection_stops_before_encoding_witness :
  snd (Demo.run false Demo.sign_request) = inl UserRejectedRequest
  /\ count_dealloc (fst (fst (Demo.run false Demo.sign_request))) = 1%nat.
Proof.
  destruct (@rejection_stops_before_encoding Demo.builtins nat
              (Demo.host false) "https://dapp.example" Demo.sign_request 0%nat
              (fst (fst (Demo.run false Demo.sign_request)))
              (snd (fst (Demo.run false Demo.sign_request)))
              (snd (Demo.run false Demo.sign_request)))
    as (Hr & _ & _ & Hc).
  - reflexivity.
  - reflexivity.
  - split; assumption.
Defined.

(** C4, as stated, fails: a request whose [keyId] is a string fails
    validation and the codec is not released at all. *)
Lemma validation_failure_releases_nothing :
  Demo.run true (Demo.address_request (JString "0"))
  = ([], 0%nat, inl (InvalidParams "Expected number"))
  /\ count_dealloc (fst (fst (Demo.run true (Demo.address_request (JString "0")))))
     <> 1%nat.
Proof.
  split; [reflexivity | discriminate].
Qed.

Lemma validation_error_before_any_call_witness :
  exists f,
    Demo.run true (Demo.address_request (JString "0"))
    = ([], 0%nat, inl (InvalidParams (@StructError_toString Demo.builtins f))).
Proof.
  destruct (@validation_error_before_any_call Demo.builtins nat
              (Demo.host true) "https://dapp.example"
              (Demo.address_request (JString "0")) 0%nat)
    as (f & _ & Hrun).
  - left. reflexivity.
  - reflexivity.
  - exists f. exact Hrun.
Defined.

(** C5, as stated, fails: [keyId = -1] is accepted by [getAddress], which
    goes on to return an address, and [keyId = 1/2] is accepted by
    [signTransaction]. *)
Lemma negative_and_fractional_keyId_accepted :
  is_nonneg_integer (Demo.num (-1)) = false
  /\ validate (params (Demo.address_request (Demo.num (-1)))) GetAddressStruct
     = inr (params (Demo.address_request (Demo.num (-1))))
  /\ snd (Demo.run true (Demo.address_request (Demo.num (-1))))
     = inr "sov1abcd"
  /\ is_nonneg_integer (JNumber (Finite (1 # 2))) = false
  /\ passes_validation
       {| method := "signTransaction";
          params := JObject [("keyId", JNumber (Finite (1 # 2)));
                             ("transaction", Demo.transaction)] |} = true.
Proof.
  repeat split.
Qed.

Lemma keyId_must_be_a_number_witness :
  exists f,
    Demo.run true (Demo.address_request (JString "0"))
    = ([], 0%nat, inl (InvalidParams (@StructError_toString Demo.builtins f))).
Proof.
  destruct (@keyId_must_be_a_number Demo.builtins nat (Demo.host true)
              "https://dapp.example" (Demo.address_request (JString "0"))
              0%nat) as (Hfail & _ & _).
  - left. reflexivity.
  - apply Hfail. reflexivity.
Defined.

Lemma address_from_normalized_key_witness :
  fst (fst (Demo.run true (Demo.address_request (Demo.num 0))))
  = [Called (snap_getBip32PublicKey
               (@getKeypairParams Demo.builtins (Demo.num 0)))
       (inr (JString "0x00abcd"));
     Called (bechEncodePublicKey "abcd") (inr "sov1abcd"%string);
     Dealloc].
Proof.
  destruct (@address_from_normalized_key Demo.builtins nat (Demo.host true)
              "https://dapp.example" (Demo.address_request (Demo.num 0))
              0%nat
              (fst (fst (Demo.run true (Demo.address_request (Demo.num 0)))))
              1%nat "sov1abcd")
    as (raw & _ & _ & _).
  - reflexivity.
  - reflexivity.
  - reflexivity.
Defined.

Lemma unsigned_transaction_replaces_only_call_witness :
  exists runtime_bytes,
    own_entries
      (JObject [("nonce", Demo.num 0); ("chain_id", Demo.num 4321);
                ("max_priority_fee_bips", Demo.num 0);
                ("max_fee", Demo.num 10000); ("gas_limit", JArray []);
                ("runtime_msg", Array_from [x01])])
    = filter (fun kv => negb (String.eqb "call" (fst kv)))
        (own_entries Demo.transaction)
      ++ [("runtime_msg", Array_from runtime_bytes)].
Proof.
  destruct (@unsigned_transaction_replaces_only_call Demo.builtins nat
              (Demo.host true) "https://dapp.example" Demo.sign_request 0%nat
              (fst (fst (Demo.run true Demo.sign_request)))
              (snd (fst (Demo.run true Demo.sign_request)))
              (snd (Demo.run true Demo.sign_request))
              (JObject [("nonce", Demo.num 0); ("chain_id", Demo.num 4321);
                        ("max_priority_fee_bips", Demo.num 0);
                        ("max_fee", Demo.num 10000); ("gas_limit", JArray []);
                        ("runtime_msg", Array_from [x01])]))
    as (runtime_bytes & _ & Hentries & _).
  - reflexivity.
  - simpl. tauto.
  - simpl. repeat constructor; simpl; intuition discriminate.
  - exists runtime_bytes. exact Hentries.
Defined.

Lemma signature_over_canonical_unsigned_bytes_witness :
  exists tx_bytes,
    snd (Demo.run true Demo.sign_request) = inr (bytesToHex tx_bytes).
Proof.
  destruct (@signature_over_canonical_unsigned_bytes Demo.builtins nat
              (Demo.host true) "https://dapp.example" Demo.sign_request 0%nat
              (fst (fst (Demo.run true Demo.sign_request)))
              (snd (fst (Demo.run true Demo.sign_request)))
              "0xff0a")
    as (pre & rb & ser & key & sb & pk & tx_bytes & _ & _ & Hhex).
  - reflexivity.
  - reflexivity.
  - exists tx_bytes. simpl. now rewrite <- Hhex.
Defined.

Lemma displayed_address_is_of_signing_key_witness :
  exists node address shown,
    shown_address shown = Some address
    /\ cleanPublicKeyResponse (JString (publicKey node))
       = inr (slice 2 (remove0x (publicKey node))).
Proof.
  destruct (@displayed_address_is_of_signing_key Demo.builtins nat
              (Demo.host true) "https://dapp.example" Demo.sign_request 0%nat
              (fst (fst (Demo.run true Demo.sign_request)))
              (snd (fst (Demo.run true Demo.sign_request)))
              "0xff0a")
    as (kp & entropy & node & key & address & shown & approved & ev & u
        & ser & sb & st & tb & _ & _ & Hclean & Hshown & _).
  - reflexivity.
  - reflexivity.
  - exists node, address, shown. split; assumption.
Defined.

(* ================================================================= *)
(** ** Further properties of the handler and of validation *)

Section MoreValidationFacts.

Lemma array_number_failures :
  forall path items i,
    flat_map (fun kv => failures number (path ++ [fst kv]) (snd kv))
      (indexed_from i items) = []
    <-> forallb is_number items = true.
Proof.
  intros path items. induction items as [|x rest IH]; intros i;
    cbn [indexed_from flat_map forallb fst snd].
  - tauto.
  - rewrite andb_true_iff, <- (IH (S i)). split.
    + intros Hnil. apply app_eq_nil in Hnil. destruct Hnil as [Hx Hrest].
      split; [now apply number_failures in Hx | exact Hrest].
    + intros [Hx Hrest]. apply (number_failures (path ++ [index_key i])) in Hx.
      now rewrite Hx, Hrest.
Qed.

Lemma gas_limit_failures :
  forall path v,
    failures (optional (array number)) path v = [] <-> gas_limit_ok v = true.
Proof.
  intros path v. destruct v; cbn [failures gas_limit_ok];
    try (split; [discriminate | discriminate]); try tauto.
  apply array_number_failures.
Qed.

Lemma object_any_failures :
  forall path v, failures object_any path v = [] <-> isObject v = true.
Proof.
  intros path v. cbn [failures]. destruct (isObject v); split; congruence.
Qed.

Lemma unknown_failures :
  forall (path : list string) (known : string -> bool) (entries : Fields),
    map (fun kv => mkFailure (path ++ [fst kv]) "never" (snd kv))
      (filter (fun kv => negb (known (fst kv))) entries) = []
    <-> forallb known (keys entries) = true.
Proof.
  intros path known entries. induction entries as [|[k v] rest IH];
    cbn [filter map keys forallb fst].
  - tauto.
  - destruct (known k); cbn [negb andb map].
    + exact IH.
    + split; discriminate.
Qed.

Lemma TransactionStruct_failures_iff :
  forall path tx,
    failures TransactionStruct path tx = [] <-> envelope_ok tx = true.
Proof.
  intros path tx. unfold envelope_ok, TransactionStruct.
  cbn [failures]. destruct (isObject tx); cbn [andb]; [| split; discriminate].
  repeat rewrite andb_true_iff.
  fold (failures object_any (path ++ ["call"]) (get_prop "call" tx)).
  fold (failures number (path ++ ["chain_id"]) (get_prop "chain_id" tx)).
  fold (failures number (path ++ ["max_priority_fee_bips"])
          (get_prop "max_priority_fee_bips" tx)).
  fold (failures number (path ++ ["max_fee"]) (get_prop "max_fee" tx)).
  fold (failures (optional (array number)) (path ++ ["gas_limit"])
          (get_prop "gas_limit" tx)).
  fold (failures number (path ++ ["nonce"]) (get_prop "nonce" tx)).
  rewrite <- (object_any_failures (path ++ ["call"])).
  rewrite <- (number_failures (path ++ ["chain_id"])).
  rewrite <- (number_failures (path ++ ["max_priority_fee_bips"])).
  rewrite <- (number_failures (path ++ ["max_fee"])).
  rewrite <- (number_failures (path ++ ["nonce"])).
  rewrite <- (gas_limit_failures (path ++ ["gas_limit"])).
  rewrite <- (unknown_failures path
                (fun k => existsb (String.eqb k) envelope_fields)).
  split.
  - intros Hnil. apply app_eq_nil in Hnil. destruct Hnil as [Hk Hu].
    repeat (apply app_eq_nil in Hk; destruct Hk as [? Hk]).
    repeat split; assumption.
  - intros [[[[[[Hc Hci] Hmp] Hmf] Hg] Hn] Hu].
    unfold known_key. cbn [map fst]. fold envelope_fields.
    rewrite Hu, Hc, Hci, Hmp, Hmf, Hg, Hn. reflexivity.
Qed.

End MoreValidationFacts.

Section MoreProperties2.

Context `{JsBuiltins} {World : Type} `{Host World}.

(** X7. [TransactionStruct] accepts exactly the objects whose [call] is
    an object, whose [chain_id], [max_priority_fee_bips], [max_fee] and
    [nonce] are numbers, whose [gas_limit] is absent or an array of
    numbers, and which have no other property. *)
Theorem TransactionStruct_accepts_exactly :
  forall tx,
    validate tx TransactionStruct = inr tx <-> envelope_ok tx = true.
Proof.
  intros tx. rewrite <- (TransactionStruct_failures_iff []).
  unfold validate. destruct (failures TransactionStruct [] tx); split;
    congruence.
Qed.

(** X8. [GetAddressStruct] accepts exactly the objects whose [keyId] is a
    number; [SignTransactionStruct] accepts exactly the objects with a
    number as [keyId], an acceptable [transaction] and no other
    property. *)
Theorem parameter_structs_accept_exactly :
  forall p,
    (validate p GetAddressStruct = inr p
     <-> isObject p && is_number (get_prop "keyId" p) = true)
    /\ (validate p SignTransactionStruct = inr p
        <-> sign_params_ok p = true).
Proof.
  intros p. split.
  - unfold validate, GetAddressStruct. cbn [failures].
    destruct (isObject p); cbn [andb]; [| split; discriminate].
    fold (failures number ([] ++ ["keyId"]) (get_prop "keyId" p)).
    destruct (is_number (get_prop "keyId" p)) eqn:E.
    + apply (number_failures ([] ++ ["keyId"])) in E. rewrite E. tauto.
    + cbn [failures]. rewrite E. split; discriminate.
  - assert (Hiff : failures SignTransactionStruct [] p = []
                   <-> sign_params_ok p = true).
    { unfold sign_params_ok, SignTransactionStruct.
      cbn [failures]. destruct (isObject p); cbn [andb];
        [| split; discriminate].
      repeat rewrite andb_true_iff.
      fold (failures TransactionStruct ([] ++ ["transaction"])
              (get_prop "transaction" p)).
      fold (failures number ([] ++ ["keyId"]) (get_prop "keyId" p)).
      rewrite <- (TransactionStruct_failures_iff ([] ++ ["transaction"])).
      rewrite <- (number_failures ([] ++ ["keyId"])).
      rewrite <- (unknown_failures []
                    (fun k => existsb (String.eqb k) ["transaction"; "keyId"])).
      split.
      - intros Hnil. apply app_eq_nil in Hnil. destruct Hnil as [Hk Hu].
        repeat (apply app_eq_nil in Hk; destruct Hk as [? Hk]).
        repeat split; assumption.
      - intros [[Ht Hk] Hu]. unfold known_key. cbn [map fst].
        rewrite Hu, Ht, Hk. reflexivity. }
    rewrite <- Hiff. unfold validate.
    destruct (failures SignTransactionStruct [] p); split; congruence.
Qed.

Lemma toString_of_number :
  forall v, is_number v = true -> toString v = inr (to_string v).
Proof.
  intros v Hn. destruct v; try discriminate Hn. reflexivity.
Qed.

Lemma gas_limit_text_ok :
  forall v,
    gas_limit_ok v = true ->
    gas_limit_text v
    = inr match v with
          | JArray items => String.concat ", " (map to_string items)
          | _ => "Not Set"
          end.
Proof.
  intros v Hok. destruct v; try discriminate Hok; reflexivity.
Qed.

(** X6. For an envelope [TransactionStruct] accepts, building the
    confirmation panel never throws and makes no call; the panel shows
    ['Not Set'] when [gas_limit] is absent and the entries joined by
    [', '] when it is an array. *)
Theorem confirmation_content_never_fails :
  forall origin transaction address (w : World),
    envelope_ok transaction = true ->
    confirmation_content origin transaction address w
    = ([], w,
       inr (panel [
         heading "Signature request";
         text "The application at:";
         copyable origin;
         text "is requesting a signature for the call message:";
         copyable (JSON_stringify (get_prop "call" transaction));
         text "from address:";
         copyable address;
         text "with nonce:";
         copyable (to_string (get_prop "nonce" transaction));
         text "with chainId:";
         copyable (to_string (get_prop "chain_id" transaction));
         text "with maxPriorityFeeBips:";
         copyable (to_string (get_prop "max_priority_fee_bips" transaction));
         text "with maxFee:";
         copyable (to_string (get_prop "max_fee" transaction));
         text "with gasLimit:";
         copyable match get_prop "gas_limit" transaction with
                  | JArray items => String.concat ", " (map to_string items)
                  | _ => "Not Set"
                  end ])).
Proof.
  intros origin transaction address w Hok.
  unfold envelope_ok in Hok. repeat rewrite andb_true_iff in Hok.
  destruct Hok as [[[[[[[_ _] Hci] Hmp] Hmf] Hg] Hn] _].
  unfold confirmation_content, M.bind, M.lift.
  rewrite (toString_of_number _ Hn), (toString_of_number _ Hci),
    (toString_of_number _ Hmp), (toString_of_number _ Hmf),
    (gas_limit_text_ok _ Hg).
  reflexivity.
Qed.

(** X9. Both methods start at the custody gateway with the same
    derivation parameters for the same [keyId]: the path
    [m / 44' / 1551' / keyId'], [getAddress] asking for the public key and
    [signTransaction] for the entropy. *)
Theorem both_methods_use_the_same_path :
  forall origin request (w : World),
    passes_validation request = true ->
    let kp := getKeypairParams (get_prop "keyId" (params request)) in
    hd_error (map call_of (fst (fst (onRpcRequest origin request w))))
    = Some (Some (custody_call (method request) kp))
    /\ path kp = ["m"; "44'"; "1551'";
                  (to_string (get_prop "keyId" (params request)) ++ "'")%string].
Proof.
  intros origin [m p] w Hpass kp. subst kp. split; [| reflexivity].
  destruct (onRpcRequest origin {| method := m; params := p |} w)
    as [[tr w'] r] eqn:Hrun.
  unfold passes_validation, custody_call in *.
  unfold_run. cbn [method params fst] in *.
  destruct (String.eqb m "getAddress");
    [destruct (validate p GetAddressStruct) as [f | p'] eqn:Hv |
     destruct (String.eqb m "signTransaction");
     [destruct (validate p SignTransactionStruct) as [f | p'] eqn:Hv |]].
  all: try discriminate Hpass.
  all: apply validate_inr in Hv; destruct Hv as [-> _].
  all: split_run Hrun; inversion Hrun; subst; reflexivity.
Qed.

End MoreProperties2.

Lemma concat_empty_cons :
  forall (x : string) (l : list string),
    String.concat "" (x :: l) = (x ++ String.concat "" l)%string.
Proof.
  intros x [|y l]; cbn [String.concat].
  - clear. induction x as [|c x IH]; cbn; [reflexivity | now rewrite <- IH].
  - reflexivity.
Qed.

Lemma byte_hex_read_back :
  forall (b : byte) (rest : string),
    hex_pairs_to_bytes (byte_hex b ++ rest)
    = match hex_pairs_to_bytes rest with
      | Some bytes => Some (b :: bytes)
      | None => None
      end.
Proof.
  intros b rest.
  destruct b; cbn; destruct (hex_pairs_to_bytes rest); reflexivity.
Qed.

Lemma hex_pairs_read_back :
  forall bytes : list byte,
    hex_pairs_to_bytes (String.concat "" (map byte_hex bytes)) = Some bytes.
Proof.
  induction bytes as [|b rest IH]; [reflexivity |].
  cbn [map]. rewrite concat_empty_cons, byte_hex_read_back, IH. reflexivity.
Qed.

Lemma hex_length :
  forall bytes : list byte,
    String.length (String.concat "" (map byte_hex bytes))
    = (2 * List.length bytes)%nat.
Proof.
  induction bytes as [|b rest IH]; [reflexivity |].
  cbn [map]. rewrite concat_empty_cons. cbn [List.length].
  change (byte_hex b ++ String.concat "" (map byte_hex rest))%string
    with (String (hex_digit (N.div (Byte.to_N b) 16))
            (String (hex_digit (N.modulo (Byte.to_N b) 16))
               (String.concat "" (map byte_hex rest)))).
  cbn [String.length]. rewrite IH.
  rewrite Nat.mul_succ_r, Nat.add_comm. reflexivity.
Qed.

Lemma remove0x_prefixed :
  forall s : string, remove0x (String "0" (String "x" s)) = s.
Proof.
  intros s. destruct s; reflexivity.
Qed.

(** X10. [bytesToHex] writes [0x] and two lower-case digits per byte;
    the digits read back to the bytes, so different byte strings never
    give the same text. *)
Theorem bytesToHex_loses_nothing :
  forall bytes : list byte,
    bytesToHex bytes
    = String "0" (String "x" (String.concat "" (map byte_hex bytes)))
    /\ String.length (bytesToHex bytes) = (2 + 2 * List.length bytes)%nat
    /\ hex_pairs_to_bytes (remove0x (bytesToHex bytes)) = Some bytes
    /\ forall other, bytesToHex other = bytesToHex bytes -> other = bytes.
Proof.
  intros bytes.
  assert (Hshape : forall bs, bytesToHex bs
            = String "0" (String "x" (String.concat "" (map byte_hex bs))))
    by reflexivity.
  assert (Hback : forall bs,
            hex_pairs_to_bytes (remove0x (bytesToHex bs)) = Some bs).
  { intros bs. rewrite Hshape, remove0x_prefixed.
    apply hex_pairs_read_back. }
  repeat split.
  - rewrite Hshape. cbn [String.length]. now rewrite hex_length.
  - apply Hback.
  - intros other Heq.
    assert (Hs : Some other = Some bytes)
      by (rewrite <- (Hback other), Heq; apply Hback).
    now inversion Hs.
Qed.

(** X11. On the hex text of a flag byte followed by a key,
    [cleanPublicKeyResponse] returns the hex digits of the key alone. *)
Theorem flag_byte_is_stripped :
  forall (flag : byte) (key : list byte),
    cleanPublicKeyResponse (JString (bytesToHex (flag :: key)))
    = inr (remove0x (bytesToHex key)).
Proof.
  intros flag key. unfold cleanPublicKeyResponse. f_equal.
  assert (Hrm : forall bs, remove0x (bytesToHex bs)
                           = String.concat "" (map byte_hex bs)).
  { intros bs. apply remove0x_prefixed. }
  rewrite !Hrm. cbn [map]. rewrite concat_empty_cons. reflexivity.
Qed.

Section MoreProperties.

Context `{JsBuiltins} {World : Type} `{Host World}.

(** X1. When a collaborator call throws, the handler rethrows that same
    error; the failed call is followed by nothing but the release of the
    codec. *)
Theorem collaborator_error_is_rethrown :
  forall origin request (w : World) tr w' r er,
    onRpcRequest origin request w = (tr, w', r) ->
    In (Some er) (map thrown_by tr) ->
    r = inl er
    /\ exists pre c, tr = pre ++ [Called c (inl er); Dealloc].
Proof.
  intros origin [m p] w tr w' r er Hrun Hin.
  unfold_run. cbn [method params] in Hrun.
  destruct (String.eqb m "getAddress");
    [destruct (validate p GetAddressStruct) |
     destruct (String.eqb m "signTransaction");
     [destruct (validate p SignTransactionStruct) |]].
  all: split_run Hrun; inversion Hrun; subst; clear Hrun.
  all: cbn in Hin;
    repeat (destruct Hin as [Hin | Hin]; try discriminate Hin);
    try (destruct Hin; fail).
  all: injection Hin as <-.
  all: split; [reflexivity |].
  all: match goal with
       | |- context [Called ?c0 (inl _)] =>
           first [ exists [], c0; reflexivity
                 | eexists [_], c0; reflexivity
                 | eexists [_; _], c0; reflexivity
                 | eexists [_; _; _], c0; reflexivity
                 | eexists [_; _; _; _], c0; reflexivity
                 | eexists [_; _; _; _; _], c0; reflexivity
                 | eexists [_; _; _; _; _; _], c0; reflexivity
                 | eexists [_; _; _; _; _; _; _], c0; reflexivity ]
       end.
Qed.

(** X2. The encoder and the signer are reached only through an approved
    dialog: a run that calls any of them shows a dialog answered with a
    truthy value before the first such call, and shows no second dialog. *)
Theorem encoding_only_after_approval :
  forall origin request (w : World) tr w' r,
    onRpcRequest origin request w = (tr, w', r) ->
    existsb is_encoder_or_signer tr = true ->
    exists pre shown answer post,
      tr = pre ++ Called (snap_dialog shown) (inr answer) :: post
      /\ truthy answer = true
      /\ existsb is_encoder_or_signer pre = false
      /\ existsb is_dialog post = false.
Proof.
  intros origin [m p] w tr w' r Hrun Henc.
  unfold_run. cbn [method params] in Hrun.
  destruct (String.eqb m "getAddress");
    [destruct (validate p GetAddressStruct) |
     destruct (String.eqb m "signTransaction");
     [destruct (validate p SignTransactionStruct) |]].
  all: split_run Hrun; inversion Hrun; subst; clear Hrun.
  all: try discriminate Henc.
  all: eexists [_; _; _], _, _, _.
  all: split; [reflexivity | split; [assumption | split; reflexivity]].
Qed.

(** X3. One request makes at most one custody-gateway call, shows at most
    one dialog and asks for at most one signature. *)
Theorem one_dialog_one_signature :
  forall origin request (w : World),
    let tr := fst (fst (onRpcRequest origin request w)) in
    (List.length (filter is_dialog tr) <= 1)%nat
    /\ (List.length (filter is_sign tr) <= 1)%nat
    /\ (List.length (filter is_custody tr) <= 1)%nat.
Proof.
  intros origin [m p] w.
  destruct (onRpcRequest origin {| method := m; params := p |} w)
    as [[tr w'] r] eqn:Hrun.
  unfold_run. cbn [method params fst] in *.
  destruct (String.eqb m "getAddress");
    [destruct (validate p GetAddressStruct) |
     destruct (String.eqb m "signTransaction");
     [destruct (validate p SignTransactionStruct) |]].
  all: split_run Hrun; inversion Hrun; subst; clear Hrun.
  all: cbn; repeat split; repeat constructor.
Qed.

(** X4. A [getAddress] request never asks for entropy, builds no key
    tree node, shows no dialog and calls neither encoder nor signer. *)
Theorem getAddress_never_touches_private_key :
  forall origin request (w : World),
    method request = "getAddress" ->
    let tr := fst (fst (onRpcRequest origin request w)) in
    existsb (fun e => touches_private_key e || is_dialog e
                      || is_encoder_or_signer e) tr = false.
Proof.
  intros origin [m p] w Hm. cbn [method] in Hm. subst m.
  destruct (onRpcRequest origin {| method := "getAddress"; params := p |} w)
    as [[tr w'] r] eqn:Hrun.
  unfold_run. cbn [method params fst String.eqb Ascii.eqb Bool.eqb] in *.
  destruct (validate p GetAddressStruct).
  all: split_run Hrun; inversion Hrun; subst; clear Hrun.
  all: reflexivity.
Qed.

End MoreProperties.

Section MoreProperties3.

Context `{JsBuiltins} {World : Type} `{Host World}.

Lemma toString_inr :
  forall v s, toString v = inr s -> s = to_string v.
Proof.
  intros v s Hs. destruct v; cbn in Hs; congruence.
Qed.

(** X5. What the dialog displays is what gets signed: the origin is the
    request's origin; nonce, chain id, priority fee and maximal fee are
    those of the unsigned transaction handed to the codec; the gas-limit
    text renders its [gas_limit]; and the call message displayed is the
    value whose serialization is its [runtime_msg]. *)
Theorem what_is_shown_is_what_is_signed :
  forall origin request (w : World) tr w' r shown unsignedTransaction,
    onRpcRequest origin request w = (tr, w', r) ->
    In (Some (snap_dialog shown)) (map call_of tr) ->
    In (Some (serializeUnsignedTransaction unsignedTransaction))
      (map call_of tr) ->
    NoDup (keys (own_entries (get_prop "transaction" (params request)))) ->
    shown_value "The application at:" shown = Some origin
    /\ shown_value "with nonce:" shown
       = Some (to_string (get_prop "nonce" unsignedTransaction))
    /\ shown_value "with chainId:" shown
       = Some (to_string (get_prop "chain_id" unsignedTransaction))
    /\ shown_value "with maxPriorityFeeBips:" shown
       = Some (to_string (get_prop "max_priority_fee_bips" unsignedTransaction))
    /\ shown_value "with maxFee:" shown
       = Some (to_string (get_prop "max_fee" unsignedTransaction))
    /\ (exists gas,
          shown_value "with gasLimit:" shown = Some gas
          /\ gas_limit_text (get_prop "gas_limit" unsignedTransaction) = inr gas)
    /\ (exists call runtime_bytes,
          shown_value "is requesting a signature for the call message:" shown
          = Some (JSON_stringify call)
          /\ In (Called (serializeCall call) (inr runtime_bytes)) tr
          /\ get_prop "runtime_msg" unsignedTransaction
             = Array_from runtime_bytes).
Proof.
  intros origin [m p] w tr w' r shown u Hrun Hd Hu Hnd.
  cbn [method params] in *.
  unfold_run. cbn [method params] in Hrun.
  destruct (String.eqb m "getAddress");
    [destruct (validate p GetAddressStruct) |
     destruct (String.eqb m "signTransaction");
     [destruct (validate p SignTransactionStruct) as [f | p'] eqn:Hv |]].
  all: try (apply SignTransactionStruct_accepts in Hv;
            destruct Hv as [-> [_ [Hok _]]]).
  all: split_run Hrun; inversion Hrun; subst; clear Hrun.
  all: cbn in Hu;
    repeat (destruct Hu as [Hu | Hu]; try discriminate Hu);
    try (destruct Hu; fail).
  all: injection Hu as <-.
  all: cbn in Hd;
    repeat (destruct Hd as [Hd | Hd]; try discriminate Hd);
    try (destruct Hd; fail).
  all: injection Hd as <-.
  all: match goal with
       | Hc : host_call (serializeCall _) _ = (_, inr ?rb) |- _ =>
           destruct (unsignedTransaction_fields _ _ (Array_from rb) Hok Hnd)
             as (Hrm & _ & Hsame)
       end.
  all: repeat match goal with
         | Ht : toString _ = inr _ |- _ => apply toString_inr in Ht; subst
         end.
  all: rewrite !Hsame by discriminate.
  all: repeat split; try reflexivity.
  all: try (eexists; split; [reflexivity | eassumption]).
  all: eexists _, _; split; [reflexivity | split; [cbn; tauto | exact Hrm]].
Qed.

End MoreProperties3.


(* ================================================================= *)
(** ** Properties of the site's form *)

Module SiteFacts.
Import Site.

Lemma drop_white_space_nil :
  forall s, drop_white_space s = [] <-> forallb is_white_space s = true.
Proof.
  induction s as [|c rest IH]; cbn [drop_white_space forallb].
  - tauto.
  - destruct (is_white_space c); cbn [andb]; [exact IH |].
    split; discriminate.
Qed.

Lemma drop_white_space_all :
  forall s,
    forallb is_white_space (drop_white_space s) = true ->
    drop_white_space s = [].
Proof.
  induction s as [|c rest IH]; cbn [drop_white_space]; [reflexivity |].
  destruct (is_white_space c) eqn:E; [exact IH |].
  cbn [forallb]. rewrite E. discriminate.
Qed.

Lemma forallb_rev :
  forall (A : Type) (p : A -> bool) (l : list A),
    forallb p (rev l) = forallb p l.
Proof.
  intros A p l. induction l as [|x rest IH]; [reflexivity |].
  cbn [rev forallb]. rewrite forallb_app, IH. cbn [forallb].
  rewrite andb_true_r. apply andb_comm.
Qed.

Lemma rev_nil_iff :
  forall (A : Type) (l : list A), rev l = [] <-> l = [].
Proof.
  intros A l. split; intros Hl.
  - rewrite <- (rev_involutive l), Hl. reflexivity.
  - subst l. reflexivity.
Qed.

(** The trimmed string is empty exactly when the string is blank. *)
Lemma trim_blank :
  forall s, trim s = [] <-> forallb is_white_space s = true.
Proof.
  intros s. unfold trim. split.
  - intros Ht. apply rev_nil_iff, drop_white_space_nil in Ht.
    rewrite forallb_rev in Ht.
    apply drop_white_space_nil, drop_white_space_all, Ht.
  - intros Hs. apply drop_white_space_nil in Hs. rewrite Hs. reflexivity.
Qed.

Lemma drop_white_space_head :
  forall c rest,
    is_white_space c = false -> drop_white_space (c :: rest) = c :: rest.
Proof.
  intros c rest E. cbn [drop_white_space]. now rewrite E.
Qed.

Lemma trim_clean :
  forall s,
    forallb (fun c => negb (is_white_space c)) s = true -> trim s = s.
Proof.
  intros s Hs. unfold trim.
  assert (Hdrop : forall l,
            forallb (fun c => negb (is_white_space c)) l = true ->
            drop_white_space l = l).
  { intros [|c l] Hl; [reflexivity |]. cbn [forallb] in Hl.
    apply andb_true_iff in Hl. destruct Hl as [Hc _].
    apply negb_true_iff in Hc. now apply drop_white_space_head. }
  rewrite (Hdrop s Hs), Hdrop, rev_involutive; [reflexivity |].
  now rewrite forallb_rev.
Qed.

Lemma split_nonempty :
  forall sep s, split sep s <> [].
Proof.
  intros sep [|c rest]; cbn [split]; [discriminate |].
  destruct (N.eqb c sep); [discriminate |].
  destruct (split sep rest); discriminate.
Qed.

(** Splitting distributes over a separator. *)
Lemma split_app :
  forall sep a b,
    split sep (a ++ sep :: b) = split sep a ++ split sep b.
Proof.
  intros sep a b. induction a as [|c rest IH]; cbn [app split].
  - rewrite N.eqb_refl. reflexivity.
  - destruct (N.eqb c sep); [now rewrite IH |].
    rewrite IH. destruct (split sep rest) as [|x xs] eqn:E.
    + now apply split_nonempty in E.
    + reflexivity.
Qed.

Lemma split_without_separator :
  forall sep s,
    forallb (fun c => negb (N.eqb c sep)) s = true -> split sep s = [s].
Proof.
  intros sep s. induction s as [|c rest IH]; cbn [forallb split];
    [reflexivity |].
  intros Hs. apply andb_true_iff in Hs. destruct Hs as [Hc Hrest].
  apply negb_true_iff in Hc. rewrite Hc, (IH Hrest). reflexivity.
Qed.

Lemma digit_cases :
  forall c, is_digit c = true ->
    (c = 48 \/ c = 49 \/ c = 50 \/ c = 51 \/ c = 52 \/ c = 53 \/ c = 54
     \/ c = 55 \/ c = 56 \/ c = 57)%N.
Proof.
  intros c Hc. unfold is_digit in Hc. apply andb_true_iff in Hc.
  destruct Hc as [Hlo Hhi]. apply N.leb_le in Hlo, Hhi. lia.
Qed.

Lemma digit_not_white_space :
  forall c, is_digit c = true -> is_white_space c = false.
Proof.
  intros c Hc. apply digit_cases in Hc.
  repeat (destruct Hc as [-> | Hc]; [reflexivity |]). subst c. reflexivity.
Qed.

Lemma leading_digits_all :
  forall s, forallb is_digit s = true -> leading_digits s = s.
Proof.
  induction s as [|c rest IH]; cbn [forallb leading_digits]; [reflexivity |].
  intros Hs. apply andb_true_iff in Hs. destruct Hs as [Hc Hrest].
  now rewrite Hc, IH.
Qed.

(** [parseInt] of a string of digits is the Number value of the integer
    they denote. *)
Lemma parseInt10_digits :
  forall s,
    s <> [] -> forallb is_digit s = true ->
    parseInt10 s = number_value (digits_value s).
Proof.
  intros [|c rest] Hne Hs; [congruence |].
  pose proof Hs as Hall. cbn [forallb] in Hs.
  apply andb_true_iff in Hs. destruct Hs as [Hc _].
  unfold parseInt10.
  rewrite (drop_white_space_head _ _ (digit_not_white_space _ Hc)).
  assert (Hsigned :
    match c :: rest with
    | 45%N :: r => ((-1)%Z, r)
    | 43%N :: r => (1%Z, r)
    | _ => (1%Z, c :: rest)
    end = (1%Z, c :: rest)).
  { apply digit_cases in Hc.
    repeat (destruct Hc as [-> | Hc]; [reflexivity |]). subst c.
    reflexivity. }
  rewrite Hsigned. cbn [fst snd]. rewrite (leading_digits_all _ Hall).
  rewrite Z.mul_1_l. reflexivity.
Qed.

Lemma number_value_cases :
  forall z,
    (exists m, number_value z = Finite (inject_Z m)
               /\ (0 <= z -> 0 <= m)%Z)
    \/ number_value z = Infinite (z <? 0)%Z.
Proof.
  intros z. unfold number_value.
  destruct (Z.abs z <? 2 ^ 53)%Z.
  - left. exists z. split; [reflexivity | tauto].
  - match goal with
    | |- context [if (2 ^ 1024 <=? ?v)%Z then _ else _] =>
        set (value := v); destruct (2 ^ 1024 <=? value)%Z
    end.
    + right. reflexivity.
    + left. exists (Z.sgn z * value)%Z. split; [reflexivity |].
      intros Hz. apply Z.mul_nonneg_nonneg; [lia |].
      subst value. apply Z.shiftl_nonneg.
      assert (Hm : (0 <= Z.shiftr (Z.abs z) (Z.log2 (Z.abs z) - 52))%Z)
        by (apply Z.shiftr_nonneg; lia).
      destruct (_ || _); lia.
Qed.

Lemma number_value_exact :
  forall z, (Z.abs z < 2 ^ 53)%Z -> number_value z = Finite (inject_Z z).
Proof.
  intros z Hz. unfold number_value.
  apply Z.ltb_lt in Hz. now rewrite Hz.
Qed.

Lemma nonneg_integer_ok :
  forall m, (0 <= m)%Z -> is_nonneg_integer (JNumber (Finite (inject_Z m))) = true.
Proof.
  intros m Hm. unfold is_nonneg_integer.
  rewrite Qcanon.Qred_identity by (cbn; apply Z.gcd_1_r).
  apply andb_true_iff. split; [| reflexivity].
  apply Qle_bool_iff. unfold Qle. cbn. lia.
Qed.

Lemma parseInt10_cases :
  forall s, parseInt10 s = NaN \/ exists z, parseInt10 s = number_value z.
Proof.
  intros s. unfold parseInt10.
  destruct (leading_digits _); [now left | right; eexists; reflexivity].
Qed.

Lemma kept_entry_ok :
  forall s,
    negb (isNaN (parseInt10 s)) && ge_zero (parseInt10 s) = true ->
    gas_entry_ok (parseInt10 s) = true.
Proof.
  intros s Hkept. destruct (parseInt10_cases s) as [E | [z E]];
    rewrite E in *; [discriminate Hkept |].
  destruct (number_value_cases z) as [[m [Em Hm]] | Einf];
    [rewrite Em in * | rewrite Einf in *; exact Hkept].
  cbn [isNaN negb andb ge_zero] in Hkept. cbn [gas_entry_ok].
  apply Qle_bool_iff in Hkept. unfold Qle in Hkept. cbn in Hkept.
  apply nonneg_integer_ok. lia.
Qed.

(** The entries of a gas-limit text: what [parseGasLimit] computes after
    the test for a blank text. *)
Lemma parseGasLimit_entries :
  forall s,
    match parseGasLimit s with Some items => items | None => [] end
    = filter (fun item => negb (isNaN item) && ge_zero item)
        (map parseInt10
           (filter (fun item => negb (is_empty item))
              (map trim (split 44 s)))).
Proof.
  intros s. unfold parseGasLimit.
  destruct (is_empty (trim s)) eqn:E; [| reflexivity].
  assert (Hblank : forallb is_white_space s = true).
  { apply trim_blank. destruct (trim s); [reflexivity | discriminate]. }
  rewrite split_without_separator.
  - cbn [map filter]. rewrite E. reflexivity.
  - clear E. induction s as [|c rest IH]; [reflexivity |].
    cbn [forallb] in *. apply andb_true_iff in Hblank.
    destruct Hblank as [Hc Hrest]. rewrite (IH Hrest), andb_true_r.
    destruct (N.eqb c 44) eqn:Ec; [| reflexivity].
    apply N.eqb_eq in Ec. subst c. discriminate Hc.
Qed.

(** X14. [parseGasLimit] answers [undefined] exactly on a blank text;
    otherwise an array each of whose entries is a non-negative integer
    (or [Infinity], for digits beyond the largest double), never [NaN] and
    never negative; either way a value that [optional(array(number()))]
    accepts. *)
Theorem parseGasLimit_result :
  forall gasLimitString,
    match parseGasLimit gasLimitString with
    | None => forallb is_white_space gasLimitString = true
    | Some items =>
        forallb is_white_space gasLimitString = false
        /\ forallb gas_entry_ok items = true
    end
    /\ gas_limit_ok (gas_limit_value (parseGasLimit gasLimitString)) = true.
Proof.
  intros s.
  assert (Hentries : forall items,
            parseGasLimit s = Some items ->
            forallb gas_entry_ok items = true).
  { intros items Hp. pose proof (parseGasLimit_entries s) as He.
    rewrite Hp in He. subst items. apply forallb_forall.
    intros n Hin. apply filter_In in Hin. destruct Hin as [Hin Hkept].
    apply in_map_iff in Hin. destruct Hin as [item [<- _]].
    now apply kept_entry_ok. }
  destruct (parseGasLimit s) as [items |] eqn:Hp.
  - specialize (Hentries items eq_refl). split; [split |].
    + unfold parseGasLimit in Hp.
      destruct (trim s) as [|c t] eqn:Et; [discriminate Hp |].
      destruct (forallb is_white_space s) eqn:Eb; [| reflexivity].
      apply trim_blank in Eb. congruence.
    + exact Hentries.
    + cbn [gas_limit_value gas_limit_ok].
      clear Hp. induction items as [|n rest IH]; [reflexivity |].
      cbn [forallb map] in *. apply andb_true_iff in Hentries.
      destruct Hentries as [Hn Hrest]. rewrite (IH Hrest), andb_true_r.
      destruct n; [reflexivity | reflexivity | discriminate Hn].
  - split; [| reflexivity].
    unfold parseGasLimit in Hp.
    destruct (trim s) as [|c t] eqn:Et; [| discriminate Hp].
    now apply trim_blank.
Qed.

(** X15. A text with a comma is never [undefined], and its entries are
    those of the part before the comma followed by those of the part
    after it. *)
Theorem parseGasLimit_by_commas :
  forall a b,
    parseGasLimit (a ++ 44%N :: b)
    = Some (match parseGasLimit a with Some items => items | None => [] end
            ++ match parseGasLimit b with Some items => items | None => [] end).
Proof.
  intros a b. rewrite !parseGasLimit_entries.
  unfold parseGasLimit.
  destruct (is_empty (trim (a ++ 44%N :: b))) eqn:E.
  - assert (Hblank : forallb is_white_space (a ++ 44%N :: b) = true).
    { apply trim_blank. destruct (trim (a ++ 44%N :: b));
        [reflexivity | discriminate]. }
    rewrite forallb_app in Hblank. cbn [forallb] in Hblank.
    apply andb_true_iff in Hblank. destruct Hblank as [_ Hc].
    discriminate Hc.
  - rewrite split_app, map_app, filter_app, map_app, filter_app.
    reflexivity.
Qed.

Lemma units_of_uint_digits :
  forall d, forallb is_digit (units_of_uint d) = true.
Proof.
  induction d; cbn [units_of_uint forallb]; try rewrite IHd; reflexivity.
Qed.

Lemma digits_value_acc :
  forall d acc,
    fold_left (fun a c => 10 * a + (Z.of_N c - 48))%Z (units_of_uint d)
      (Z.pos acc)
    = Z.pos (Pos.of_uint_acc d acc).
Proof.
  induction d; intros acc; cbn [units_of_uint fold_left Pos.of_uint_acc];
    [reflexivity | ..];
    match goal with
    | |- fold_left _ _ ?start = Z.pos (Pos.of_uint_acc _ ?next) =>
        replace start with (Z.pos next) by lia
    end; apply IHd.
Qed.

Lemma digits_value_of_uint :
  forall d, digits_value (units_of_uint d) = Z.of_N (N.of_uint d).
Proof.
  unfold digits_value, N.of_uint.
  induction d; cbn [units_of_uint fold_left Pos.of_uint];
    [reflexivity | exact IHd | ..];
    match goal with
    | |- fold_left _ _ ?start = Z.of_N (N.pos (Pos.of_uint_acc _ ?next)) =>
        replace start with (Z.pos next) by lia
    end; apply digits_value_acc.
Qed.

Lemma decimal_nonempty : forall n, decimal n <> [].
Proof.
  intros n. unfold decimal.
  assert (Hd : N.to_uint n <> Decimal.Nil).
  { destruct n; [discriminate | apply DecimalPos.Unsigned.to_uint_nonnil]. }
  destruct (N.to_uint n); [congruence | ..]; discriminate.
Qed.

(** Reading back the decimal text of an integer below [2 ^ 53]. *)
Lemma parseInt10_decimal :
  forall n,
    (n < 2 ^ 53)%N ->
    parseInt10 (decimal n) = Finite (inject_Z (Z.of_N n)).
Proof.
  intros n Hn.
  rewrite parseInt10_digits
    by (apply decimal_nonempty || apply units_of_uint_digits).
  unfold decimal. rewrite digits_value_of_uint, DecimalN.Unsigned.of_to.
  apply number_value_exact. rewrite Z.abs_eq by lia.
  change (2 ^ 53)%Z with (Z.of_N (2 ^ 53)). lia.
Qed.

Lemma digits_clean :
  forall s,
    forallb is_digit s = true ->
    forallb (fun c => negb (is_white_space c)) s = true
    /\ forallb (fun c => negb (N.eqb c 44)) s = true.
Proof.
  induction s as [|c rest IH]; cbn [forallb]; [tauto |].
  intros Hs. apply andb_true_iff in Hs. destruct Hs as [Hc Hrest].
  destruct (IH Hrest) as [Hw Hs]. rewrite Hw, Hs, !andb_true_r.
  rewrite (digit_not_white_space _ Hc). split; [reflexivity |].
  apply digit_cases in Hc.
  repeat (destruct Hc as [-> | Hc]; [reflexivity |]). subst c. reflexivity.
Qed.

Lemma entries_of_space :
  forall s,
    filter (fun item => negb (is_empty item)) (map trim (split 44 (32%N :: s)))
    = filter (fun item => negb (is_empty item)) (map trim (split 44 s)).
Proof.
  intros s. cbn [split]. change (N.eqb 32 44) with false. cbv iota.
  destruct (split 44 s) as [|x xs] eqn:E; [now apply split_nonempty in E |].
  cbn [map]. replace (trim (32%N :: x)) with (trim x); reflexivity.
Qed.

(** X16. Typing the displayed gas limit back in gives the same gas limit:
    for a non-empty list of integers below [2 ^ 53], [parseGasLimit] of
    their decimal texts joined by [', '] is that list. *)
Theorem displayed_gas_limit_parses_back :
  forall gasLimit : list N,
    gasLimit <> [] ->
    Forall (fun n => n < 2 ^ 53)%N gasLimit ->
    parseGasLimit (displayed_gas_limit gasLimit)
    = Some (map (fun n => Finite (inject_Z (Z.of_N n))) gasLimit).
Proof.
  intros gasLimit Hne Hsmall.
  assert (Hitems :
    match parseGasLimit (displayed_gas_limit gasLimit) with
    | Some items => items
    | None => []
    end = map (fun n => Finite (inject_Z (Z.of_N n))) gasLimit).
  { clear Hne. rewrite parseGasLimit_entries.
    induction gasLimit as [|n rest IH]; [reflexivity |].
    inversion Hsmall as [|? ? Hn Hrest]; subst.
    assert (Hone :
      filter (fun item => negb (isNaN item) && ge_zero item)
        (map parseInt10
           (filter (fun item => negb (is_empty item))
              (map trim (split 44 (decimal n)))))
      = [Finite (inject_Z (Z.of_N n))]).
    { destruct (digits_clean _ (units_of_uint_digits (N.to_uint n)))
        as [Hw Hs].
      fold (decimal n) in Hw, Hs.
      rewrite (split_without_separator _ _ Hs). cbn [map].
      rewrite (trim_clean _ Hw).
      destruct (decimal n) eqn:Ed; [now apply decimal_nonempty in Ed |].
      cbn [filter is_empty negb]. rewrite <- Ed. cbn [map].
      rewrite (parseInt10_decimal _ Hn). cbn [filter isNaN negb andb ge_zero].
      replace (Qle_bool 0 (inject_Z (Z.of_N n))) with true; [reflexivity |].
      symmetry. apply Qle_bool_iff. unfold Qle. cbn. lia. }
    destruct rest as [|m rest']; [exact Hone |].
    unfold displayed_gas_limit in *. cbn [map join] in *.
    change (units ", ") with [44%N; 32%N]. cbn [app].
    rewrite split_app, map_app, filter_app, map_app, filter_app, Hone.
    rewrite entries_of_space. cbn [app]. f_equal. exact (IH Hrest). }
  destruct (parseGasLimit (displayed_gas_limit gasLimit)) as [items|] eqn:Hp;
    [now rewrite Hitems |].
  destruct gasLimit as [|n rest]; [congruence |]. discriminate Hitems.
Qed.

(** X12. [trimTrailingSlash] removes one final slash and nothing else: it
    undoes appending a slash, and leaves a string as it is exactly when
    the string does not end in a slash. *)
Theorem trimTrailingSlash_removes_one_slash :
  forall str : list N,
    trimTrailingSlash (str ++ [47%N]) = str
    /\ (trimTrailingSlash str = str
        \/ str = trimTrailingSlash str ++ [47%N])
    /\ (trimTrailingSlash str = str <-> last str 0%N <> 47%N).
Proof.
  intros str. unfold trimTrailingSlash. repeat split.
  - rewrite last_last, removelast_last. reflexivity.
  - destruct (N.eqb (last str 0%N) 47) eqn:E; [right | now left].
    apply N.eqb_eq in E. destruct str as [|c rest]; [discriminate E |].
    rewrite <- E. apply app_removelast_last. discriminate.
  - destruct (N.eqb (last str 0%N) 47) eqn:E.
    + apply N.eqb_eq in E. intros Hsame Hlast.
      destruct str as [|c rest]; [discriminate E |].
      assert (Hlen : List.length (removelast (c :: rest))
                     = List.length (c :: rest)) by now rewrite Hsame.
      rewrite (app_removelast_last 0%N (l := c :: rest)) in Hlen at 2
        by discriminate.
      rewrite length_app in Hlen. cbn [List.length] in Hlen. lia.
    + intros _. now apply N.eqb_neq.
  - intros Hlast. apply N.eqb_neq in Hlast. now rewrite Hlast.
Qed.

(** X13. [submitSequencer] changes nothing of the form but its status.
    Without a sequencer address it sends no request and reports
    ['Sequencer URL field is empty']; otherwise it sends exactly one
    request, a JSON POST of the body to the address, freed of one final
    slash, followed by a slash and the endpoint. *)
Theorem submitSequencer_requests :
  forall fetch state body endpoint,
    let result := submitSequencer fetch state body endpoint in
    fst result = set_status state (status (fst result))
    /\ match sequencer state with
       | None | Some [] =>
           snd result = []
           /\ status (fst result)
              = status_text (units "Sequencer URL field is empty")
       | Some url =>
           snd result
           = [(trimTrailingSlash url ++ units "/" ++ endpoint,
               {| fetch_method := units "POST";
                  content_type := units "application/json";
                  body := body |})]
       end.
Proof.
  intros fetch state body endpoint result. subst result.
  unfold submitSequencer.
  destruct (sequencer state) as [[|c url] |]; [now split | | now split].
  destruct (fetch _ _) as [message | response]; [now split |].
  destruct (ok response); cbn [negb]; [| now split].
  destruct (json response); now split.
Qed.

(** X17. A non-empty value of digits typed into a numeric field is stored
    as the Number value of the integer it denotes, a non-negative integer
    (or [Infinity]), in each of the five fields. *)
Theorem digits_are_stored_as_integers :
  forall state value,
    value <> [] ->
    forallb is_digit value = true ->
    let n := number_value (digits_value value) in
    gas_entry_ok n = true
    /\ keyId (onKeyIdChange state value) = Some n
    /\ nonce (onNonceChange state value) = n
    /\ chainId (onChainIdChange state value) = Some n
    /\ maxPriorityFee (onMaxPriorityFeeChange state value) = Some n
    /\ maxFee (onMaxFeeChange state value) = Some n.
Proof.
  intros state value Hne Hdigits n. subst n.
  assert (Htest : regex_test value = true).
  { unfold regex_test. destruct value as [|c rest]; [congruence |].
    cbn [is_empty negb andb]. apply forallb_forall. intros d Hd.
    rewrite forallb_forall in Hdigits. now rewrite (Hdigits d Hd). }
  assert (Hempty : is_empty value = false)
    by (destruct value; [congruence | reflexivity]).
  unfold onKeyIdChange, onNonceChange, onChainIdChange,
    onMaxPriorityFeeChange, onMaxFeeChange.
  rewrite Hempty, Htest. cbn [orb keyId nonce chainId maxPriorityFee maxFee].
  rewrite (parseInt10_digits _ Hne Hdigits). repeat split.
  assert (Hpos : (0 <= digits_value value)%Z).
  { unfold digits_value.
    assert (Hacc : forall s acc, (0 <= acc)%Z ->
              forallb is_digit s = true ->
              (0 <= fold_left (fun a c => 10 * a + (Z.of_N c - 48)) s acc)%Z).
    { induction s as [|c rest IH]; intros acc Hacc Hs; [exact Hacc |].
      cbn [forallb fold_left] in *. apply andb_true_iff in Hs.
      destruct Hs as [Hc Hrest]. apply IH; [| exact Hrest].
      unfold is_digit in Hc. apply andb_true_iff in Hc.
      destruct Hc as [Hlo _]. apply N.leb_le in Hlo. lia. }
    apply Hacc; [lia | exact Hdigits]. }
  destruct (number_value_cases (digits_value value)) as [[m [Em Hm]] | Einf].
  - rewrite Em. cbn [gas_entry_ok]. apply nonneg_integer_ok, Hm, Hpos.
  - rewrite Einf. cbn [gas_entry_ok].
    replace (digits_value value <? 0)%Z with false; [reflexivity |].
    symmetry. apply Z.ltb_ge, Hpos.
Qed.

Lemma number_value_not_NaN :
  forall z, isNaN (number_value z) = false.
Proof.
  intros z. destruct (number_value_cases z) as [[m [-> _]] | ->]; reflexivity.
Qed.

(** X18. A value the field pattern accepts, or an empty value, replaces
    nonce, chain id, priority fee and maximal fee by [parseInt(value, 10)],
    which is [NaN] exactly when the value is empty or starts with a
    backspace; any other value leaves the form as it is, and so does an
    empty value typed into the key id field. *)
Theorem cleared_fields_become_NaN :
  forall state value,
    (is_empty value || regex_test value = true ->
     nonce (onNonceChange state value) = parseInt10 value
     /\ chainId (onChainIdChange state value) = Some (parseInt10 value)
     /\ maxPriorityFee (onMaxPriorityFeeChange state value)
        = Some (parseInt10 value)
     /\ maxFee (onMaxFeeChange state value) = Some (parseInt10 value)
     /\ (isNaN (parseInt10 value) = true
         <-> match value with
             | c :: _ => is_digit c = false
             | [] => True
             end))
    /\ (is_empty value || regex_test value = false ->
        onNonceChange state value = state
        /\ onChainIdChange state value = state
        /\ onMaxPriorityFeeChange state value = state
        /\ onMaxFeeChange state value = state
        /\ onKeyIdChange state value = state)
    /\ onKeyIdChange state [] = state.
Proof.
  intros state value. split; [| split; [| reflexivity]].
  - intros Hok. unfold onNonceChange, onChainIdChange,
      onMaxPriorityFeeChange, onMaxFeeChange. rewrite Hok.
    cbn [nonce chainId maxPriorityFee maxFee]. repeat split.
    + destruct value as [|c rest]; [tauto |].
      cbn [is_empty orb] in Hok. unfold regex_test in Hok.
      cbn [is_empty negb andb forallb] in Hok.
      apply andb_true_iff in Hok. destruct Hok as [Hc _].
      destruct (is_digit c) eqn:Ed; [| reflexivity].
      intros Hnan. unfold parseInt10 in Hnan.
      rewrite (drop_white_space_head _ _ (digit_not_white_space _ Ed)) in Hnan.
      assert (Hsigned :
        match c :: rest with
        | 45%N :: r => ((-1)%Z, r)
        | 43%N :: r => (1%Z, r)
        | _ => (1%Z, c :: rest)
        end = (1%Z, c :: rest)).
      { pose proof (digit_cases _ Ed) as Hcases.
        repeat (destruct Hcases as [-> | Hcases]; [reflexivity |]).
        subst c. reflexivity. }
      rewrite Hsigned in Hnan. cbn [fst snd leading_digits] in Hnan.
      rewrite Ed in Hnan. now rewrite number_value_not_NaN in Hnan.
    + destruct value as [|c rest]; [reflexivity |].
      intros Ed. cbn [is_empty orb] in Hok. unfold regex_test in Hok.
      cbn [is_empty negb andb forallb] in Hok.
      apply andb_true_iff in Hok. destruct Hok as [Hc _].
      rewrite Ed in Hc. cbn [orb] in Hc. apply N.eqb_eq in Hc. subst c.
      reflexivity.
  - intros Hno. unfold onNonceChange, onChainIdChange,
      onMaxPriorityFeeChange, onMaxFeeChange, onKeyIdChange. rewrite Hno.
    destruct (is_empty value); repeat split.
Qed.

End SiteFacts.

(* ================================================================= *)
(** ** More runs on concrete hosts *)

Lemma collaborator_error_is_rethrown_witness :
  snd (Examples.failing_run (Demo.address_request (Demo.num 0)))
  = inl (Error "invalid public key").
Proof.
  destruct (@collaborator_error_is_rethrown Demo.builtins nat
              Examples.failing_host "https://dapp.example"
              (Demo.address_request (Demo.num 0)) 0%nat
              (fst (fst (Examples.failing_run
                           (Demo.address_request (Demo.num 0)))))
              1%nat
              (snd (Examples.failing_run (Demo.address_request (Demo.num 0))))
              (Error "invalid public key"))
    as (Hr & _).
  - reflexivity.
  - simpl. tauto.
  - exact Hr.
Defined.

Lemma encoding_only_after_approval_witness :
  exists pre shown answer post,
    fst (fst (Demo.run true Demo.sign_request))
    = pre ++ Called (snap_dialog shown) (inr answer) :: post
    /\ truthy answer = true.
Proof.
  destruct (@encoding_only_after_approval Demo.builtins nat (Demo.host true)
              "https://dapp.example" Demo.sign_request 0%nat
              (fst (fst (Demo.run true Demo.sign_request)))
              (snd (fst (Demo.run true Demo.sign_request)))
              (snd (Demo.run true Demo.sign_request)))
    as (pre & shown & answer & post & Htr & Hyes & _).
  - reflexivity.
  - reflexivity.
  - exists pre, shown, answer, post. split; assumption.
Defined.

Lemma getAddress_never_touches_private_key_witness :
  existsb (fun e => touches_private_key e || is_dialog e
                    || is_encoder_or_signer e)
    (fst (fst (Demo.run true (Demo.address_request (Demo.num 0))))) = false.
Proof.
  apply (@getAddress_never_touches_private_key Demo.builtins nat
           (Demo.host true) "https://dapp.example"
           (Demo.address_request (Demo.num 0)) 0%nat).
  reflexivity.
Defined.

Lemma what_is_shown_is_what_is_signed_witness :
  shown_value "with chainId:" Examples.shown
  = Some (@to_string Demo.builtins
            (get_prop "chain_id" Examples.unsignedTransaction)).
Proof.
  destruct (@what_is_shown_is_what_is_signed Demo.builtins nat
              (Demo.host true) "https://dapp.example" Demo.sign_request 0%nat
              (fst (fst (Demo.run true Demo.sign_request)))
              (snd (fst (Demo.run true Demo.sign_request)))
              (snd (Demo.run true Demo.sign_request))
              Examples.shown Examples.unsignedTransaction)
    as (_ & _ & Hchain & _).
  - reflexivity.
  - simpl. tauto.
  - simpl. tauto.
  - simpl. repeat constructor; simpl; intuition discriminate.
  - exact Hchain.
Defined.

Lemma confirmation_content_never_fails_witness :
  exists shown,
    @confirmation_content Demo.builtins nat "https://dapp.example"
      Demo.transaction "sov1abcd" 0%nat
    = ([], 0%nat, inr shown).
Proof.
  eexists.
  apply (@confirmation_content_never_fails Demo.builtins nat
           "https://dapp.example" Demo.transaction "sov1abcd" 0%nat).
  reflexivity.
Defined.

Lemma both_methods_use_the_same_path_witness :
  hd_error (map call_of (fst (fst (Demo.run true Demo.sign_request))))
  = Some (Some (snap_getBip32Entropy
                  (@getKeypairParams Demo.builtins (Demo.num 0)))).
Proof.
  destruct (@both_methods_use_the_same_path Demo.builtins nat
              (Demo.host true) "https://dapp.example" Demo.sign_request 0%nat)
    as (Hfirst & _).
  - reflexivity.
  - exact Hfirst.
Defined.

Lemma displayed_gas_limit_parses_back_witness :
  Site.parseGasLimit (Site.displayed_gas_limit [1; 20; 0]%N)
  = Some [Finite (inject_Z 1); Finite (inject_Z 20); Finite (inject_Z 0)].
Proof.
  apply (SiteFacts.displayed_gas_limit_parses_back [1; 20; 0]%N).
  - discriminate.
  - repeat constructor.
Defined.

Lemma digits_are_stored_as_integers_witness :
  Site.keyId (Site.onKeyIdChange Examples.form (Site.units "42"))
  = Some (Site.number_value 42).
Proof.
  destruct (SiteFacts.digits_are_stored_as_integers Examples.form
              (Site.units "42")) as (_ & Hkey & _).
  - discriminate.
  - reflexivity.
  - exact Hkey.
Defined.
